(** * SolarSystem.js: the scene build, the animation loop and the lifecycle

    A shallow embedding of [src/components/SolarSystem.js] (the body of the
    [useEffect] callback of the [SolarSystem] component) and the properties
    of its body registry, its orbital update, its scene graph and its
    mount / resize / unmount handlers.

    JavaScript numbers are kept behind the interface [JsNumber]: what is
    proved for every implementation of it holds for IEEE doubles. The
    real numbers are one implementation, without rounding; they serve for
    the statements that are equalities of the code's own expressions and
    for the examples. *)

From Stdlib Require Import Reals Lra Lia ZArith String Sorted.
From stdpp Require Import base option list strings.

Set Warnings "-register-all".

(** ** JavaScript numbers *)

(** The arithmetic the component uses: [+], [*], [/], [Math.cos],
    [Math.sin], [Math.PI], and, inside three.js, [Math.sqrt]
    ([Vector3.normalize]), [Math.floor] ([WebGLRenderer.setSize]) and the
    conversion to single precision of a [Float32Array]
    ([Float32BufferAttribute]). [of_Z] gives integer literals and array
    indices. *)
Class JsNumber (F : Type) := {
  of_Z : Z -> F;
  fadd : F -> F -> F;
  fmul : F -> F -> F;
  fdiv : F -> F -> F;
  fcos : F -> F;
  fsin : F -> F;
  fsqrt : F -> F;
  ffloor : F -> F;
  fround : F -> F;
  fPI : F
}.

Declare Scope js_scope.
Delimit Scope js_scope with js.
Notation "x + y" := (fadd x y) : js_scope.
Notation "x * y" := (fmul x y) : js_scope.
Notation "x / y" := (fdiv x y) : js_scope.

(** A decimal literal [m * 10^-e], such as [0.0005 = dec 5 4]: the
    quotient of two integers. *)
Definition dec `{JsNumber F} (m : Z) (e : nat) : F :=
  (of_Z m / of_Z (10 ^ Z.of_nat e))%js.

(** ** Exceptions *)

Inductive JsError :=
  | TypeError        (* a property read on null or undefined *)
  | NotFoundError    (* DOM: removeChild of a node that is not a child *)
  | UndefinedNumber. (* outside the model, see [planetDistances_at] *)

Inductive Result (A : Type) :=
  | Ok (a : A)
  | Throw (e : JsError).
Arguments Ok {A} a.
Arguments Throw {A} e.

#[global] Instance Result_ret : MRet Result := fun A a => Ok a.
#[global] Instance Result_bind : MBind Result := fun A B f m =>
  match m with
  | Ok a => f a
  | Throw e => Throw e
  end.

(** [Array.prototype.forEach] with the element and its index, for a
    callback that can throw. *)
Fixpoint forEach_from {A St : Type} (f : A -> nat -> St -> Result St)
    (i : nat) (l : list A) (s : St) : Result St :=
  match l with
  | [] => Ok s
  | x :: l' => s' ← f x i s; forEach_from f (S i) l' s'
  end.

Definition forEach {A St : Type} (f : A -> nat -> St -> Result St)
    (l : list A) (s : St) : Result St :=
  forEach_from f 0 l s.

(** [Array.prototype.indexOf]: the first index holding [x], or [-1]. *)
Fixpoint indexOf_from (x : string) (l : list string) (i : Z) : Z :=
  match l with
  | [] => (-1)%Z
  | y :: l' => if decide (y = x) then i else indexOf_from x l' (i + 1)%Z
  end.

Definition indexOf (x : string) (l : list string) : Z := indexOf_from x l 0.

(** ** The DOM container *)

Inductive DomNode :=
  | CanvasElement            (* renderer.domElement *)
  | OtherNode (id : nat).

#[global] Instance DomNode_eq_dec : EqDecision DomNode.
Proof. solve_decision. Defined.

Record Element := {
  childNodes : list DomNode;
  style_background : option string;
  style_backgroundSize : option string
}.

Definition appendChild (c : DomNode) (e : Element) : Element :=
  {| childNodes := filter (fun n => n <> c) (childNodes e) ++ [c];
     style_background := style_background e;
     style_backgroundSize := style_backgroundSize e |}.

Fixpoint remove_first (c : DomNode) (l : list DomNode) : list DomNode :=
  match l with
  | [] => []
  | n :: l' => if decide (n = c) then l' else n :: remove_first c l'
  end.

(** [Node.removeChild]: throws [NotFoundError] when [c] is not a child. *)
Definition removeChild (c : DomNode) (e : Element) : Result Element :=
  if decide (c ∈ childNodes e) then
    Ok {| childNodes := remove_first c (childNodes e);
          style_background := style_background e;
          style_backgroundSize := style_backgroundSize e |}
  else Throw NotFoundError.

Definition set_style (bg size : string) (e : Element) : Element :=
  {| childNodes := childNodes e;
     style_background := Some bg;
     style_backgroundSize := Some size |}.

(** ** The scene graph *)

Section Model.
Context {F : Type} `{JsNumber F}.
Local Open Scope js_scope.

Record Vec3 := vec3 { vx : F; vy : F; vz : F }.

(** [Vector3.normalize] of a vector that is not zero. *)
Definition normalize (v : Vec3) : Vec3 :=
  let len := fsqrt (vx v * vx v + vy v * vy v + vz v * vz v) in
  vec3 (vx v / len) (vy v / len) (vz v / len).

Inductive Geometry :=
  | SphereGeometry (radius : F) (widthSegments heightSegments : Z)
  | RingGeometry (innerRadius outerRadius : F) (thetaSegments : Z)
  | BufferGeometry (positions : list F).

Inductive Material :=
  | MeshBasicMaterial (map : string) (doubleSide transparent : bool)
      (opacity : option F)
  | MeshStandardMaterial (map : string)
  | LineBasicMaterial (color : Z) (opacity : F) (transparent : bool)
      (linewidth : F).

Inductive Kind :=
  | AmbientLight (color : Z) (intensity : F)
  | DirectionalLight (color : Z) (intensity : F)
  | Mesh (geometry : Geometry) (material : Material)
  | SpriteText (text : option string) (textHeight : F) (color : string)
  | LineLoop (geometry : Geometry) (material : Material).

(** A [THREE.Object3D]: its transform and its [children] array. *)
Inductive Object3D := Object {
  kind : Kind;
  position : Vec3;
  rotation : Vec3;
  children : list Object3D
}.

Definition zero3 : Vec3 := vec3 (of_Z 0) (of_Z 0) (of_Z 0).

(** A fresh object: at the origin, not rotated, no children. *)
Definition new_object (k : Kind) : Object3D :=
  Object k zero3 zero3 [].

Definition set_position (p : Vec3) (o : Object3D) : Object3D :=
  Object (kind o) p (rotation o) (children o).

Definition set_rotation (r : Vec3) (o : Object3D) : Object3D :=
  Object (kind o) (position o) r (children o).

Definition set_position_x (x : F) (o : Object3D) : Object3D :=
  set_position (vec3 x (vy (position o)) (vz (position o))) o.

Definition set_position_z (z : F) (o : Object3D) : Object3D :=
  set_position (vec3 (vx (position o)) (vy (position o)) z) o.

Definition set_rotation_x (x : F) (o : Object3D) : Object3D :=
  set_rotation (vec3 x (vy (rotation o)) (vz (rotation o))) o.

Definition set_rotation_y (y : F) (o : Object3D) : Object3D :=
  set_rotation (vec3 (vx (rotation o)) y (vz (rotation o))) o.

(** [parent.add(child)] for a child that has no parent yet. *)
Definition add (child : Object3D) (parent : Object3D) : Object3D :=
  Object (kind parent) (position parent) (rotation parent)
    (children parent ++ [child]).

(** The objects of a subtree, the root included
    ([Object3D.traverse] visits exactly these). *)
Fixpoint subtree (o : Object3D) : list Object3D :=
  o :: (fix go (l : list Object3D) : list Object3D :=
          match l with
          | [] => []
          | c :: l' => subtree c ++ go l'
          end) (children o).

End Model.

Arguments Vec3 F : clear implicits.
Arguments Geometry F : clear implicits.
Arguments Material F : clear implicits.
Arguments Kind F : clear implicits.
Arguments Object3D F : clear implicits.

(** ** Camera, renderer and controls *)

Section Devices.
Context {F : Type} `{JsNumber F}.
Local Open Scope js_scope.

(** A [THREE.PerspectiveCamera]. [projection] records the parameters the
    projection matrix was last computed from. *)
Record Camera := {
  fov : F;
  aspect : F;
  near : F;
  far : F;
  camera_position : Vec3 F;
  projection : F * F * F * F
}.

Definition updateProjectionMatrix (c : Camera) : Camera :=
  {| fov := fov c; aspect := aspect c; near := near c; far := far c;
     camera_position := camera_position c;
     projection := (fov c, aspect c, near c, far c) |}.

Definition PerspectiveCamera (fov0 aspect0 near0 far0 : F) : Camera :=
  updateProjectionMatrix
    {| fov := fov0; aspect := aspect0; near := near0; far := far0;
       camera_position := zero3;
       projection := (fov0, aspect0, near0, far0) |}.

Definition set_camera_position (p : Vec3 F) (c : Camera) : Camera :=
  {| fov := fov c; aspect := aspect c; near := near c; far := far c;
     camera_position := p; projection := projection c |}.

Definition set_aspect (a : F) (c : Camera) : Camera :=
  {| fov := fov c; aspect := a; near := near c; far := far c;
     camera_position := camera_position c; projection := projection c |}.

Inductive ToneMapping := NoToneMapping | ACESFilmicToneMapping.

(** A [THREE.WebGLRenderer]: the size given to [setSize], the pixel
    ratio, the size of the drawing buffer of its canvas ([domElement.width]
    and [domElement.height]), and the number of frames submitted with
    [render]. *)
Record Renderer := {
  antialias : bool;
  width : F;
  height : F;
  pixelRatio : F;
  canvas_width : F;
  canvas_height : F;
  toneMapping : ToneMapping;
  toneMappingExposure : F;
  frames : nat
}.

(** A new renderer has the size of a new canvas (300 x 150) and the
    pixel ratio 1. *)
Definition WebGLRenderer (antialias0 : bool) : Renderer :=
  {| antialias := antialias0; width := of_Z 300; height := of_Z 150;
     pixelRatio := of_Z 1;
     canvas_width := of_Z 300; canvas_height := of_Z 150;
     toneMapping := NoToneMapping;
     toneMappingExposure := of_Z 1; frames := 0 |}.

(** [renderer.setSize(w, h)], as three.js has it: the size is kept and the
    drawing buffer gets [Math.floor(w * pixelRatio)] by
    [Math.floor(h * pixelRatio)] pixels. *)
Definition setSize (w h : F) (r : Renderer) : Renderer :=
  {| antialias := antialias r; width := w; height := h;
     pixelRatio := pixelRatio r;
     canvas_width := ffloor (w * pixelRatio r);
     canvas_height := ffloor (h * pixelRatio r);
     toneMapping := toneMapping r;
     toneMappingExposure := toneMappingExposure r; frames := frames r |}.

(** [renderer.setPixelRatio(v)], as three.js has it: the ratio is kept and
    the size is set again, to what it is. *)
Definition setPixelRatio (v : F) (r : Renderer) : Renderer :=
  setSize (width r) (height r)
    {| antialias := antialias r; width := width r; height := height r;
       pixelRatio := v;
       canvas_width := canvas_width r; canvas_height := canvas_height r;
       toneMapping := toneMapping r;
       toneMappingExposure := toneMappingExposure r; frames := frames r |}.

Definition set_toneMapping (t : ToneMapping) (e : F) (r : Renderer)
    : Renderer :=
  {| antialias := antialias r; width := width r; height := height r;
     pixelRatio := pixelRatio r;
     canvas_width := canvas_width r; canvas_height := canvas_height r;
     toneMapping := t;
     toneMappingExposure := e; frames := frames r |}.

(** [renderer.render(scene, camera)]: one frame is submitted. *)
Definition render (r : Renderer) : Renderer :=
  {| antialias := antialias r; width := width r; height := height r;
     pixelRatio := pixelRatio r;
     canvas_width := canvas_width r; canvas_height := canvas_height r;
     toneMapping := toneMapping r;
     toneMappingExposure := toneMappingExposure r; frames := S (frames r) |}.

(** The settings of the [OrbitControls] instance. *)
Record Controls := {
  enableDamping : bool;
  dampingFactor : F;
  enableZoom : bool;
  enablePan : bool;
  maxPolarAngle : F
}.

End Devices.

Arguments Camera F : clear implicits.
Arguments Renderer F : clear implicits.
Arguments Controls F : clear implicits.

(** [controls.update()] belongs to the three.js library: what it does to
    the camera is left open. *)
Class OrbitControlsLib (F : Type) := {
  controls_update : Controls F -> Camera F -> Camera F
}.

(** ** The component *)

Section Component.
Context {F : Type} `{JsNumber F} `{!OrbitControlsLib F}.
Local Open Scope js_scope.

(** The three parallel arrays of the body registry. *)
Record Registry := {
  planetTextures : list string;
  planetDistances : list F;
  planetNames : list string
}.

(** An entry of the [planets] array. [mesh] refers to the planet's mesh,
    which is shared with the scene: it is the mesh's index in
    [scene.children]. *)
Record Planet := {
  mesh : nat;
  distance : F;
  rotationSpeed : F;
  orbitSpeed : F
}.

(** Everything the effect creates and its callbacks close over, and the
    part of the host they use. *)
Record World := {
  scene : list (Object3D F);      (* scene.children *)
  camera : Camera F;
  renderer : Renderer F;
  controls : Controls F;
  sun : nat;                      (* index of the sun in scene.children *)
  planets : list Planet;
  container : Element;            (* the div rendered for mountRef *)
  mountRef_attached : bool;       (* mountRef.current is the div, not null *)
  rafQueue : nat;                 (* pending requestAnimationFrame(animate) *)
  resizeListeners : nat;          (* listeners added for 'resize' *)
  innerWidth : F;                 (* window.innerWidth *)
  innerHeight : F                 (* window.innerHeight *)
}.

Definition with_scene (sc : list (Object3D F)) (w : World) : World :=
  {| scene := sc; camera := camera w; renderer := renderer w;
     controls := controls w; sun := sun w; planets := planets w;
     container := container w; mountRef_attached := mountRef_attached w;
     rafQueue := rafQueue w;
     resizeListeners := resizeListeners w;
     innerWidth := innerWidth w; innerHeight := innerHeight w |}.

Definition with_camera (c : Camera F) (w : World) : World :=
  {| scene := scene w; camera := c; renderer := renderer w;
     controls := controls w; sun := sun w; planets := planets w;
     container := container w; mountRef_attached := mountRef_attached w;
     rafQueue := rafQueue w;
     resizeListeners := resizeListeners w;
     innerWidth := innerWidth w; innerHeight := innerHeight w |}.

Definition with_renderer (r : Renderer F) (w : World) : World :=
  {| scene := scene w; camera := camera w; renderer := r;
     controls := controls w; sun := sun w; planets := planets w;
     container := container w; mountRef_attached := mountRef_attached w;
     rafQueue := rafQueue w;
     resizeListeners := resizeListeners w;
     innerWidth := innerWidth w; innerHeight := innerHeight w |}.

Definition with_container (c : Element) (w : World) : World :=
  {| scene := scene w; camera := camera w; renderer := renderer w;
     controls := controls w; sun := sun w; planets := planets w;
     container := c; mountRef_attached := mountRef_attached w;
     rafQueue := rafQueue w;
     resizeListeners := resizeListeners w;
     innerWidth := innerWidth w; innerHeight := innerHeight w |}.

Definition with_mountRef_attached (b : bool) (w : World) : World :=
  {| scene := scene w; camera := camera w; renderer := renderer w;
     controls := controls w; sun := sun w; planets := planets w;
     container := container w; mountRef_attached := b;
     rafQueue := rafQueue w;
     resizeListeners := resizeListeners w;
     innerWidth := innerWidth w; innerHeight := innerHeight w |}.

Definition with_rafQueue (n : nat) (w : World) : World :=
  {| scene := scene w; camera := camera w; renderer := renderer w;
     controls := controls w; sun := sun w; planets := planets w;
     container := container w; mountRef_attached := mountRef_attached w;
     rafQueue := n;
     resizeListeners := resizeListeners w;
     innerWidth := innerWidth w; innerHeight := innerHeight w |}.

Definition with_resizeListeners (n : nat) (w : World) : World :=
  {| scene := scene w; camera := camera w; renderer := renderer w;
     controls := controls w; sun := sun w; planets := planets w;
     container := container w; mountRef_attached := mountRef_attached w;
     rafQueue := rafQueue w;
     resizeListeners := n;
     innerWidth := innerWidth w; innerHeight := innerHeight w |}.

Definition with_window (iw ih : F) (w : World) : World :=
  {| scene := scene w; camera := camera w; renderer := renderer w;
     controls := controls w; sun := sun w; planets := planets w;
     container := container w; mountRef_attached := mountRef_attached w;
     rafQueue := rafQueue w;
     resizeListeners := resizeListeners w;
     innerWidth := iw; innerHeight := ih |}.

End Component.

Arguments Registry F : clear implicits.
Arguments Planet F : clear implicits.
Arguments World F : clear implicits.

(** ** The effect: scene build, animation loop, handlers *)

Section Effect.
Context {F : Type} `{JsNumber F} `{!OrbitControlsLib F}.
Local Open Scope js_scope.

(** [planetDistances[i]]. Out of range the source reads [undefined] and
    goes on with coordinates that are not numbers; numbers here have no
    such value, so the model stops with [UndefinedNumber]. A registry
    whose arrays have one length never gets here. *)
Definition planetDistances_at (reg : Registry F) (i : nat) : Result F :=
  match planetDistances reg !! i with
  | Some d => Ok d
  | None => Throw UndefinedNumber
  end.

(** The callback of [planetTextures.forEach], on [scene.children] and
    the [planets] array. *)
Definition add_planet (reg : Registry F) (texturePath : string) (i : nat)
    (st : list (Object3D F) * list (Planet F))
    : Result (list (Object3D F) * list (Planet F)) :=
  let '(scene0, planets0) := st in
  d ← planetDistances_at reg i;
  let texture := texturePath in
  let material := MeshStandardMaterial texture in
  let geometry := SphereGeometry (of_Z 2) 32 32 in
  let planet :=
    set_position (vec3 d (of_Z 0) (of_Z 0))
      (new_object (Mesh geometry material)) in
  (* scene.add(planet) *)
  let ref := length scene0 in
  let scene1 := scene0 ++ [planet] in
  let planets1 :=
    planets0 ++ [ {| mesh := ref;
                     distance := d;
                     rotationSpeed :=
                       dec 1 2 * (of_Z (Z.of_nat i) + of_Z 1);
                     orbitSpeed :=
                       dec 2 2 / (of_Z (Z.of_nat i) + of_Z 1) |} ] in
  let nameText :=
    set_position (vec3 (of_Z 0) (of_Z 3) (of_Z 0))
      (new_object (SpriteText (planetNames reg !! i) (dec 15 1) "white")) in
  (* planet.add(nameText) *)
  mret (alter (add nameText) ref scene1, planets1).

Definition createSaturnRings (size : F) : Object3D F :=
  let ringTexture := "/assets/textures/saturn-ring.png"%string in
  let ringGeometry := RingGeometry (size * dec 13 1) (size * dec 15 1) 64 in
  let ringMaterial :=
    MeshBasicMaterial ringTexture true true (Some (dec 8 1)) in
  let rings := new_object (Mesh ringGeometry ringMaterial) in
  set_rotation_x (fPI / of_Z 2) rings.

(** Lines 108-112: the ring goes to [planets[saturnIndex].mesh]. *)
Definition add_saturn_ring (reg : Registry F)
    (st : list (Object3D F) * list (Planet F))
    : Result (list (Object3D F)) :=
  let '(scene0, planets0) := st in
  let saturnIndex := indexOf "Saturn" (planetNames reg) in
  if decide (saturnIndex <> (-1)%Z) then
    let saturnRing := createSaturnRings (of_Z 2) in
    match planets0 !! Z.to_nat saturnIndex with
    | Some p => Ok (alter (add saturnRing) (mesh p) scene0)
    | None => Throw TypeError
    end
  else Ok scene0.

Definition createOrbit (radius : F) : Object3D F :=
  let segments := 64%nat in
  let angleStep := (fPI * of_Z 2) / of_Z (Z.of_nat segments) in
  let positions :=
    i ← seq 0 segments;
    let angle := of_Z (Z.of_nat i) * angleStep in
    [fcos angle * radius; of_Z 0; fsin angle * radius] in
  (* close the loop: positions[0] and positions[2] exist *)
  let positions :=
    match positions with
    | x :: _ :: z :: _ => positions ++ [x; of_Z 0; z]
    | _ => positions
    end in
  (* new THREE.Float32BufferAttribute(positions, 3) *)
  let orbitGeometry := BufferGeometry (fround <$> positions) in
  let orbitMaterial :=
    LineBasicMaterial 16777215 (dec 7 1) true (of_Z 2) in
  let orbitLine := new_object (LineLoop orbitGeometry orbitMaterial) in
  set_rotation_x (fPI / of_Z 2) orbitLine.

(** The callback of [planets.forEach] inside [animate], lines 157-159:
    three writes to [planet.mesh]; [time] is the variable the callback
    closes over. *)
Definition advance (time : F) (planet : Planet F) (o : Object3D F)
    : Object3D F :=
  let o :=
    set_position_x (distance planet * fcos (time * orbitSpeed planet)) o in
  let o :=
    set_position_z (distance planet * fsin (time * orbitSpeed planet)) o in
  set_rotation_y (vy (rotation o) + rotationSpeed planet) o.

(** [planet.mesh] is the object of the scene the entry refers to. *)
Definition update_planet (time : F) (planet : Planet F)
    (sc : list (Object3D F)) : list (Object3D F) :=
  alter (advance time planet) (mesh planet) sc.

(** One call of [animate]; [now] is what [Date.now()] returns. *)
Definition animate (now : F) (w : World F) : World F :=
  (* requestAnimationFrame(animate) *)
  let w := with_rafQueue (S (rafQueue w)) w in
  (* sun.rotation.y += 0.01 *)
  let w :=
    with_scene
      (alter (fun o => set_rotation_y (vy (rotation o) + dec 1 2) o)
         (sun w) (scene w)) w in
  let time := now * dec 5 4 in
  let w :=
    with_scene
      (foldl (fun sc planet => update_planet time planet sc)
         (scene w) (planets w)) w in
  let w := with_camera (controls_update (controls w) (camera w)) w in
  with_renderer (render (renderer w)) w.

(** The listener added for ['resize']. *)
Definition on_resize (w : World F) : World F :=
  let w := with_camera (set_aspect (innerWidth w / innerHeight w) (camera w)) w in
  let w := with_camera (updateProjectionMatrix (camera w)) w in
  with_renderer (setSize (innerWidth w) (innerHeight w) (renderer w)) w.

(** The function the effect returns, line 178. It reads
    [mountRef.current] when it runs: on [null] the call of [removeChild]
    is a [TypeError]. *)
Definition cleanup (w : World F) : Result (World F) :=
  if mountRef_attached w then
    current' ← removeChild CanvasElement (container w);
    mret (with_container current' w)
  else Throw TypeError.

(** The effect callback, lines 10-175. Its inputs are the registry, the
    window ([innerWidth], [innerHeight], [devicePixelRatio]), the clock at
    the first call of [animate], and [mountRef.current]. *)
Definition mount (reg : Registry F) (iw ih dpr : F) (now : F)
    (current : option Element) : Result (World F) :=
  let camera0 :=
    set_camera_position (vec3 (of_Z 0) (of_Z 50) (of_Z 150))
      (PerspectiveCamera (of_Z 75) (iw / ih) (dec 1 1) (of_Z 1000)) in
  let renderer0 :=
    set_toneMapping ACESFilmicToneMapping (of_Z 1)
      (setPixelRatio dpr (setSize iw ih (WebGLRenderer true))) in
  container ← match current with
              | Some e => Ok (appendChild CanvasElement e)
              | None => Throw TypeError
              end;
  let controls0 :=
    {| enableDamping := true; dampingFactor := dec 25 2;
       enableZoom := true; enablePan := true;
       maxPolarAngle := fPI / of_Z 2 |} in
  let container :=
    set_style "url('/assets/textures/stars.jpg') no-repeat center center fixed"
      "cover" container in
  let ambientLight := new_object (AmbientLight 4210752 (of_Z 1)) in
  let directionalLight :=
    set_position (normalize (vec3 (of_Z 10) (of_Z 10) (of_Z 10)))
      (new_object (DirectionalLight 16777215 (of_Z 1))) in
  let scene0 := [] ++ [ambientLight] in
  let scene0 := scene0 ++ [directionalLight] in
  let sunMaterial := MeshBasicMaterial "/assets/textures/sun.jpg" false false None in
  let sun0 := new_object (Mesh (SphereGeometry (of_Z 10) 64 64) sunMaterial) in
  let sunRef := length scene0 in
  let scene0 := scene0 ++ [sun0] in
  '(scene1, planets1) ← forEach (add_planet reg) (planetTextures reg) (scene0, []);
  scene2 ← add_saturn_ring reg (scene1, planets1);
  let scene3 :=
    foldl (fun sc distance0 => sc ++ [createOrbit distance0])
      scene2 (planetDistances reg) in
  let w :=
    {| scene := scene3; camera := camera0; renderer := renderer0;
       controls := controls0; sun := sunRef; planets := planets1;
       container := container; mountRef_attached := true;
       rafQueue := 0; resizeListeners := 0;
       innerWidth := iw; innerHeight := ih |} in
  let w := animate now w in
  (* window.addEventListener('resize', ...) *)
  mret (with_resizeListeners (S (resizeListeners w)) w).

(** ** The host *)

(** What the host does to a mounted component: the browser runs the
    callbacks scheduled for the next frame, and resizes the window and
    dispatches ['resize']; React calls the cleanup function ([Unmount]),
    and React sets [mountRef.current] to [null] when it removes the div
    ([DetachRef]). When a component is unmounted, React 17 and later
    detach the ref before they call the cleanup, React 16 after it: both
    orders are histories. *)
Inductive Event :=
  | Frame (now : F)
  | Resize (w h : F)
  | Unmount
  | DetachRef.

Definition frame (now : F) (w : World F) : World F :=
  let n := rafQueue w in
  Nat.iter n (animate now) (with_rafQueue 0 w).

Definition resize (iw ih : F) (w : World F) : World F :=
  Nat.iter (resizeListeners w) on_resize (with_window iw ih w).

Definition step (ev : Event) (w : World F) : Result (World F) :=
  match ev with
  | Frame now => Ok (frame now w)
  | Resize iw ih => Ok (resize iw ih w)
  | Unmount => cleanup w
  | DetachRef => Ok (with_mountRef_attached false w)
  end.

(** An exception thrown by a callback is reported by the host and the
    page goes on with the state the callback left. Only [cleanup] throws,
    and it throws before it changes anything. *)
Definition after (ev : Event) (w : World F) : World F :=
  match step ev w with
  | Ok w' => w'
  | Throw _ => w
  end.

Definition run (evs : list Event) (w : World F) : World F :=
  foldl (fun w ev => after ev w) w evs.

End Effect.

Arguments Event F : clear implicits.

(** ** The registry of the source *)

Section Registry.
Context {F : Type} `{JsNumber F}.

(** Lines 56-69. *)
Definition solar_registry : Registry F :=
  {| planetTextures :=
       [ "/assets/textures/mercury.jpg";
         "/assets/textures/venus.jpg";
         "/assets/textures/earth.jpg";
         "/assets/textures/mars.jpg";
         "/assets/textures/jupiter.jpg";
         "/assets/textures/saturn.jpg";
         "/assets/textures/uranys.jpg";
         "/assets/textures/neptune.jpg" ]%string;
     planetDistances := of_Z <$> [20; 30; 40; 50; 60; 70; 80; 100]%Z;
     planetNames :=
       [ "Mercury"; "Venus"; "Earth"; "Mars"; "Jupiter"; "Saturn";
         "Uranus"; "Neptune" ]%string |}.

(** The number of orbiting bodies: [planetTextures.forEach] makes one
    planet for each texture. *)
Definition numberOfBodies (reg : Registry F) : nat :=
  length (planetTextures reg).

(** The three arrays have one length, so that every index of one is an
    index of the others. *)
Definition registry_wf (reg : Registry F) : Prop :=
  length (planetDistances reg) = length (planetTextures reg) /\
  length (planetNames reg) = length (planetTextures reg).

(** The empty [div] that React renders for [mountRef]. *)
Definition empty_div : Element :=
  {| childNodes := []; style_background := None;
     style_backgroundSize := None |}.

End Registry.

(** ** Observations on the scene graph *)

Section Observations.
Context {F : Type} `{JsNumber F}.

(** All objects of the scene graph: the children of the scene and their
    descendants. *)
Definition objects (sc : list (Object3D F)) : list (Object3D F) :=
  sc ≫= subtree.

(** A ring attachment is a mesh with a ring geometry. *)
Definition is_ring (o : Object3D F) : bool :=
  match kind o with
  | Mesh (RingGeometry _ _ _) _ => true
  | _ => false
  end.

(** The text of a label. *)
Definition label_text (o : Object3D F) : option string :=
  match kind o with
  | SpriteText t _ _ => t
  | _ => None
  end.

(** The name a body carries: the text of its first child, the label. *)
Definition body_name (o : Object3D F) : option string :=
  head (children o) ≫= label_text.

(** The texture of a mesh. *)
Definition texture_of (o : Object3D F) : option string :=
  match kind o with
  | Mesh _ (MeshStandardMaterial t) => Some t
  | Mesh _ (MeshBasicMaterial t _ _ _) => Some t
  | _ => None
  end.

(** The ring attachments among the children of a body. *)
Definition rings_of (o : Object3D F) : list (Object3D F) :=
  filter (fun c => is_ring c = true) (children o).

(** The number of [Frame] events in a history. *)
Fixpoint count_frames (evs : list (Event F)) : nat :=
  match evs with
  | [] => 0
  | Frame _ :: evs' => S (count_frames evs')
  | _ :: evs' => count_frames evs'
  end.

End Observations.

(** ** The formulas of the specification, for comparison *)

Section Specification.
Context {F : Type} `{JsNumber F}.
Local Open Scope js_scope.

(** The specification's count of scene objects: twice the number of
    bodies plus one, one for the central body, and one for the ring when
    a body is named Saturn. *)
Definition spec_object_count (reg : Registry F) : nat :=
  2 * numberOfBodies reg + 1 + 1
  + (if decide ("Saturn" ∈ planetNames reg) then 1 else 0).

(** The specification's position of a body at time [t]. *)
Definition spec_position (t : F) (planet : Planet F) : Vec3 F :=
  vec3 (distance planet * fcos (t * orbitSpeed planet))
       (of_Z 0)
       (distance planet * fsin (t * orbitSpeed planet)).

(** The specification's rotation angle of a body at time [t]. *)
Definition spec_rotation (t : F) (planet : Planet F) : F :=
  t * rotationSpeed planet.

(** The registry of the source cut down to its first five planets: a
    registry with no body named Saturn. *)
Definition inner_registry : Registry F :=
  {| planetTextures := take 5 (planetTextures solar_registry);
     planetDistances := take 5 (planetDistances solar_registry);
     planetNames := take 5 (planetNames solar_registry) |}.

End Specification.

(** ** Real numbers as JavaScript numbers *)

(** The operations without rounding, in which a conversion to single
    precision changes nothing: the arithmetic of the registry and of the
    orbit formula as the specification reads them. An engine computes in
    IEEE 754 doubles, which agree with these operations up to rounding
    only; what is proved of accumulated sums, of buffers and of the
    lifecycle is proved for every [JsNumber], and this instance serves the
    statements about exact values and the sample inputs. *)

#[global] Instance R_JsNumber : JsNumber R :=
  {| of_Z := IZR; fadd := Rplus; fmul := Rmult; fdiv := Rdiv;
     fcos := cos; fsin := sin; fsqrt := sqrt;
     ffloor := fun x => IZR (Int_part x);
     fround := fun x => x;
     fPI := PI |}.

(** Controls that receive no input and leave the camera where it is. *)
Definition idle_controls : OrbitControlsLib R :=
  {| controls_update := fun _ c => c |}.

(** The entry of Earth, the third body of the registry of the source: its
    mesh is the sixth child of the scene. *)
Definition Earth : Planet R :=
  {| mesh := 5; distance := 40%R; rotationSpeed := 0.03%R;
     orbitSpeed := (0.02 / 3)%R |}.

(** ** The state the effect builds, in closed form *)

Section Built.
Context {F : Type} `{JsNumber F} `{!OrbitControlsLib F}.
Local Open Scope js_scope.

(** Two objects have the same shape when they differ in their transform
    only. *)
Definition same_shape (o o' : Object3D F) : Prop :=
  kind o = kind o' /\ children o = children o'.

Definition distance_at (reg : Registry F) (i : nat) : F :=
  default (of_Z 0) (planetDistances reg !! i).

(** The mesh of body [i] with its label, as [add_planet] leaves it. *)
Definition built_body (reg : Registry F) (i : nat) (texturePath : string)
    : Object3D F :=
  add
    (set_position (vec3 (of_Z 0) (of_Z 3) (of_Z 0))
       (new_object (SpriteText (planetNames reg !! i) (dec 15 1) "white")))
    (set_position (vec3 (distance_at reg i) (of_Z 0) (of_Z 0))
       (new_object
          (Mesh (SphereGeometry (of_Z 2) 32 32)
             (MeshStandardMaterial texturePath)))).

(** The entry of body [i] when its mesh is at [ref]. *)
Definition built_entry (reg : Registry F) (ref i : nat) : Planet F :=
  {| mesh := ref;
     distance := distance_at reg i;
     rotationSpeed := dec 1 2 * (of_Z (Z.of_nat i) + of_Z 1);
     orbitSpeed := dec 2 2 / (of_Z (Z.of_nat i) + of_Z 1) |}.

Definition built_planets (reg : Registry F) : list (Planet F) :=
  imap (fun i _ => built_entry reg (3 + i)%nat i) (planetTextures reg).

(** The ring is added to the body at [saturnIndex]. *)
Definition ring_on (reg : Registry F) (i : nat) (o : Object3D F)
    : Object3D F :=
  if decide (indexOf "Saturn" (planetNames reg) = Z.of_nat i)
  then add (createSaturnRings (of_Z 2)) o
  else o.

(** The lights and the sun. *)
Definition base_scene : list (Object3D F) :=
  [ new_object (AmbientLight 4210752 (of_Z 1));
    set_position (normalize (vec3 (of_Z 10) (of_Z 10) (of_Z 10)))
      (new_object (DirectionalLight 16777215 (of_Z 1)));
    new_object
      (Mesh (SphereGeometry (of_Z 10) 64 64)
         (MeshBasicMaterial "/assets/textures/sun.jpg" false false None)) ].

Definition built_scene (reg : Registry F) : list (Object3D F) :=
  base_scene
  ++ imap (fun i t => ring_on reg i (built_body reg i t)) (planetTextures reg)
  ++ (createOrbit <$> planetDistances reg).

(** The world when [animate] is called for the first time. *)
Definition built_world (reg : Registry F) (iw ih dpr : F) (e : Element)
    : World F :=
  {| scene := built_scene reg;
     camera :=
       set_camera_position (vec3 (of_Z 0) (of_Z 50) (of_Z 150))
         (PerspectiveCamera (of_Z 75) (iw / ih) (dec 1 1) (of_Z 1000));
     renderer :=
       set_toneMapping ACESFilmicToneMapping (of_Z 1)
         (setPixelRatio dpr (setSize iw ih (WebGLRenderer true)));
     controls :=
       {| enableDamping := true; dampingFactor := dec 25 2;
          enableZoom := true; enablePan := true;
          maxPolarAngle := fPI / of_Z 2 |};
     sun := 2;
     planets := built_planets reg;
     container :=
       set_style
         "url('/assets/textures/stars.jpg') no-repeat center center fixed"
         "cover" (appendChild CanvasElement e);
     mountRef_attached := true;
     rafQueue := 0;
     resizeListeners := 0;
     innerWidth := iw;
     innerHeight := ih |}.

(** The world the effect leaves: [animate] has run once and the resize
    listener is added. *)
Definition mounted (reg : Registry F) (iw ih dpr now : F) (e : Element)
    : World F :=
  let w := animate now (built_world reg iw ih dpr e) in
  with_resizeListeners (S (resizeListeners w)) w.

(** What [animate] keeps of the scene: the entries of [planets] and the
    objects they refer to, the shape of every object, and the bodies on
    the plane [y = 0]. *)
Definition scene_inv (reg : Registry F) (w : World F) : Prop :=
  planets w = built_planets reg /\
  sun w = 2 /\
  Forall2 same_shape (built_scene reg) (scene w) /\
  (forall (i : nat) (o : Object3D F),
     i < numberOfBodies reg -> scene w !! (3 + i)%nat = Some o ->
     vy (position o) = of_Z 0).

(** What holds in every state of a mounted component: one call of
    [animate] is scheduled and one resize listener is installed. *)
Definition Inv (reg : Registry F) (w : World F) : Prop :=
  scene_inv reg w /\ rafQueue w = 1 /\ resizeListeners w = 1.

(** The container holds the canvas at most once: it is gone when it
    has been removed once. *)
Definition canvas_once (w : World F) : Prop :=
  CanvasElement ∉ remove_first CanvasElement (childNodes (container w)).

(** The container does not hold the canvas. *)
Definition canvas_gone (w : World F) : Prop :=
  CanvasElement ∉ childNodes (container w).


End Built.

(** ** Further observations *)

Section Geometry.
Context {F : Type} `{JsNumber F}.

(** The points of a position buffer with item size 3: its numbers taken
    three at a time. *)
Fixpoint points (l : list F) : list (Vec3 F) :=
  match l with
  | x :: y :: z :: l' => vec3 x y z :: points l'
  | _ => []
  end.

(** The points of a line. *)
Definition line_points (o : Object3D F) : list (Vec3 F) :=
  match kind o with
  | LineLoop (BufferGeometry ps) _ => points ps
  | _ => []
  end.

(** The inner and the outer radius of a ring. *)
Definition ring_radii (o : Object3D F) : option (F * F) :=
  match kind o with
  | Mesh (RingGeometry inner outer _) _ => Some (inner, outer)
  | _ => None
  end.

(** The radius of a sphere. *)
Definition sphere_radius (o : Object3D F) : option F :=
  match kind o with
  | Mesh (SphereGeometry r _ _) _ => Some r
  | _ => None
  end.

(** Point [i] of an orbit line of the given radius, for
    [angleStep = (Math.PI * 2) / 64], as the [Float32Array] holds it. *)
Definition orbit_point (radius : F) (i : nat) : Vec3 F :=
  let angle :=
    fmul (of_Z (Z.of_nat i)) (fdiv (fmul fPI (of_Z 2)) (of_Z 64)) in
  vec3 (fround (fmul (fcos angle) radius))
       (fround (of_Z 0))
       (fround (fmul (fsin angle) radius)).

(** [a += r], done [n] times. *)
Definition add_times (n : nat) (r a : F) : F :=
  Nat.iter n (fun a => fadd a r) a.

End Geometry.

(** ** Registries the effect can build from *)

Section Builds.
Context {F : Type} `{JsNumber F}.

(** Every texture has a distance, and the first name Saturn, when there
    is one, is at the index of a body. Nothing is asked of the other
    names: [planetNames] may be shorter or longer than the other arrays. *)
Definition registry_builds (reg : Registry F) : Prop :=
  numberOfBodies reg <= length (planetDistances reg) /\
  (indexOf "Saturn" (planetNames reg) < Z.of_nat (numberOfBodies reg))%Z.

End Builds.

(** ** Registries with arrays of different lengths *)

Section Samples.
Context {F : Type} `{JsNumber F}.

(** The first five planets with all eight names: the name Saturn is at
    index 5, where there is no body. *)
Definition stray_saturn_registry : Registry F :=
  {| planetTextures := take 5 (planetTextures solar_registry);
     planetDistances := take 5 (planetDistances solar_registry);
     planetNames := planetNames solar_registry |}.

(** The eight planets with the first two names only. *)
Definition short_names_registry : Registry F :=
  {| planetTextures := planetTextures solar_registry;
     planetDistances := planetDistances solar_registry;
     planetNames := take 2 (planetNames solar_registry) |}.

(** A container that holds a node before the component is mounted. *)
Definition div_with_child : Element :=
  {| childNodes := [OtherNode 1]; style_background := None;
     style_backgroundSize := None |}.

End Samples.

(** * Properties *)

(** ** The scene build *)

Section BuildLemmas.
Context {F : Type} `{JsNumber F} `{!OrbitControlsLib F}.

Lemma alter_snoc {A} (f : A -> A) (l : list A) (x : A) :
  alter f (length l) (l ++ [x]) = l ++ [f x].
Proof.
  replace (length l) with (length l + 0) by lia.
  by rewrite alter_app_r.
Qed.

Lemma distance_at_Some (reg : Registry F) i :
  i < length (planetDistances reg) ->
  planetDistances reg !! i = Some (distance_at reg i).
Proof.
  intros Hi. unfold distance_at.
  destruct (lookup_lt_is_Some_2 _ _ Hi) as [d Hd]. by rewrite Hd.
Qed.

Lemma forEach_add_planet (reg : Registry F) ts :
  forall i0 sc pl,
    i0 + length ts <= length (planetDistances reg) ->
    forEach_from (add_planet reg) i0 ts (sc, pl) =
    Ok (sc ++ imap (fun j t => built_body reg (i0 + j) t) ts,
        pl ++ imap (fun j _ => built_entry reg (length sc + j) (i0 + j)) ts).
Proof.
  induction ts as [|t ts IH]; intros i0 sc pl Hlen; simpl in *.
  - by rewrite !app_nil_r.
  - unfold planetDistances_at. rewrite distance_at_Some by lia. simpl.
    rewrite alter_snoc.
    rewrite IH by lia.
    rewrite length_app. simpl.
    rewrite <- !app_assoc. simpl.
    rewrite !Nat.add_0_r.
    f_equal. f_equal.
    + f_equal. f_equal. apply imap_ext. intros j x _. simpl. f_equal. lia.
    + f_equal. f_equal. apply imap_ext. intros j x _. simpl. f_equal; lia.
Qed.

Lemma indexOf_from_spec (x : string) (l : list string) :
  forall i : Z,
    ((x ∉ l) /\ indexOf_from x l i = (-1)%Z) \/
    (exists k : nat,
        indexOf_from x l i = (i + Z.of_nat k)%Z /\ l !! k = Some x /\
        forall j, j < k -> l !! j <> Some x).
Proof.
  induction l as [|y l IH]; intros i; simpl.
  - left. split; [apply not_elem_of_nil | done].
  - destruct (decide (y = x)) as [->|Hne].
    + right. exists 0. split; [lia|]. split; [done|]. intros j Hj. lia.
    + destruct (IH (i + 1)%Z) as [[Hnot Heq]|(k & Heq & Hk & Hfirst)].
      * left. split; [|done]. rewrite not_elem_of_cons. split; [congruence|done].
      * right. exists (S k). split; [lia|]. split; [done|].
        intros [|j] Hj; simpl; [congruence|]. apply Hfirst. lia.
Qed.

Lemma indexOf_spec (x : string) (l : list string) :
  ((x ∉ l) /\ indexOf x l = (-1)%Z) \/
  (exists k : nat,
      indexOf x l = Z.of_nat k /\ l !! k = Some x /\
      forall j, j < k -> l !! j <> Some x).
Proof.
  destruct (indexOf_from_spec x l 0) as [?|(k & ? & ?)]; [by left|].
  right. exists k. by rewrite Z.add_0_l in *.
Qed.

Lemma built_planets_lookup (reg : Registry F) (i : nat) :
  i < numberOfBodies reg ->
  built_planets reg !! i = Some (built_entry reg (3 + i) i).
Proof.
  intros Hi. unfold built_planets. rewrite list_lookup_imap.
  destruct (lookup_lt_is_Some_2 _ _ Hi) as [t Ht]. by rewrite Ht.
Qed.

Lemma length_built_planets (reg : Registry F) :
  length (built_planets reg) = numberOfBodies reg.
Proof. apply length_imap. Qed.

Lemma alter_imap {A B} (f : B -> B) (g : nat -> A -> B) (k : nat) (l : list A) :
  alter f k (imap g l) =
  imap (fun i a => if decide (k = i) then f (g i a) else g i a) l.
Proof.
  apply list_eq. intros i.
  rewrite list_lookup_alter, !list_lookup_imap.
  destruct (decide (k = i)) as [->|]; [|done].
  by destruct (l !! i).
Qed.

Lemma alter_app_at {A} (f : A -> A) (n i : nat) (l1 l2 : list A) :
  length l1 = n -> alter f (n + i) (l1 ++ l2) = l1 ++ alter f i l2.
Proof. intros <-. apply alter_app_r. Qed.

Lemma add_saturn_ring_built (reg : Registry F) (sc0 : list (Object3D F)) :
  registry_wf reg -> length sc0 = 3 ->
  add_saturn_ring reg
    (sc0 ++ imap (built_body reg) (planetTextures reg), built_planets reg) =
  Ok (sc0 ++ imap (fun i t => ring_on reg i (built_body reg i t))
                (planetTextures reg)).
Proof.
  intros [Hd Hn] Hsc. unfold add_saturn_ring.
  destruct (indexOf_spec "Saturn" (planetNames reg))
    as [[Hnot Heq]|(k & Heq & Hk & _)].
  - rewrite Heq. rewrite decide_False by (intros ?; congruence).
    do 2 f_equal. apply imap_ext. intros i t _. unfold ring_on.
    rewrite Heq. by rewrite decide_False by lia.
  - rewrite Heq. rewrite decide_True by lia. rewrite Nat2Z.id.
    apply lookup_lt_Some in Hk.
    rewrite built_planets_lookup by (unfold numberOfBodies; lia).
    cbn [built_entry mesh].
    rewrite (alter_app_at _ 3 k) by done. rewrite alter_imap.
    do 2 f_equal. apply imap_ext. intros i t _. unfold ring_on.
    rewrite Heq. destruct (decide (k = i)) as [->|Hne].
    + by rewrite decide_True.
    + by rewrite decide_False by lia.
Qed.

Lemma foldl_createOrbit (ds : list F) :
  forall sc : list (Object3D F),
    foldl (fun sc d => sc ++ [createOrbit d]) sc ds = sc ++ (createOrbit <$> ds).
Proof.
  induction ds as [|d ds IH]; intros sc; simpl.
  - by rewrite app_nil_r.
  - rewrite IH. by rewrite <- app_assoc.
Qed.

Lemma mount_eq (reg : Registry F) (iw ih dpr now : F) (e : Element) :
  registry_wf reg ->
  mount reg iw ih dpr now (Some e) = Ok (mounted reg iw ih dpr now e).
Proof.
  intros Hwf. unfold mount, forEach.
  rewrite forEach_add_planet by (destruct Hwf as [-> _]; simpl; lia).
  cbn [mbind Result_bind mret Result_ret].
  match goal with
  | |- context [add_saturn_ring reg ?st] =>
      change st
        with (base_scene ++ imap (built_body reg) (planetTextures reg),
              built_planets reg)
  end.
  rewrite add_saturn_ring_built by done.
  cbn [mbind Result_bind mret Result_ret].
  rewrite foldl_createOrbit.
  reflexivity.
Qed.

(** *** The animation step *)

Lemma same_shape_refl (o : Object3D F) : same_shape o o.
Proof. by split. Qed.

Lemma same_shape_trans (o1 o2 o3 : Object3D F) :
  same_shape o1 o2 -> same_shape o2 o3 -> same_shape o1 o3.
Proof. intros [? ?] [? ?]. split; congruence. Qed.

Lemma Forall2_same_shape_refl (l : list (Object3D F)) :
  Forall2 same_shape l l.
Proof. induction l; constructor; auto using same_shape_refl. Qed.

Lemma Forall2_same_shape_trans (l1 l2 l3 : list (Object3D F)) :
  Forall2 same_shape l1 l2 -> Forall2 same_shape l2 l3 ->
  Forall2 same_shape l1 l3.
Proof.
  intros H12. revert l3. induction H12; intros l3 H23; inversion H23; subst.
  - constructor.
  - constructor; eauto using same_shape_trans.
Qed.

Lemma alter_same_shape (f : Object3D F -> Object3D F) (i : nat)
    (l : list (Object3D F)) :
  (forall o, same_shape o (f o)) -> Forall2 same_shape l (alter f i l).
Proof.
  intros Hf. revert i. induction l as [|o l IH]; intros [|i];
    try constructor;
    auto using same_shape_refl, Forall2_same_shape_refl.
Qed.

Lemma advance_same_shape (time : F) (p : Planet F) (o : Object3D F) :
  same_shape o (advance time p o).
Proof. by split. Qed.

Lemma foldl_update_same_shape (time : F) (pl : list (Planet F)) :
  forall sc : list (Object3D F),
    Forall2 same_shape sc
      (foldl (fun sc planet => update_planet time planet sc) sc pl).
Proof.
  induction pl as [|p pl IH]; intros sc; simpl.
  - apply Forall2_same_shape_refl.
  - eapply Forall2_same_shape_trans; [|apply IH].
    apply alter_same_shape, advance_same_shape.
Qed.

Lemma foldl_update_lookup_ne (time : F) (pl : list (Planet F)) (j : nat) :
  forall sc : list (Object3D F),
    (forall p, p ∈ pl -> mesh p <> j) ->
    foldl (fun sc planet => update_planet time planet sc) sc pl !! j = sc !! j.
Proof.
  induction pl as [|p pl IH]; intros sc Hne; simpl; [done|].
  rewrite IH by (intros q Hq; apply Hne; by right).
  unfold update_planet. apply list_lookup_alter_ne, Hne. by left.
Qed.

Lemma foldl_update_lookup (time : F) (pl : list (Planet F)) :
  forall (sc : list (Object3D F)) (i : nat) (p : Planet F),
    NoDup (mesh <$> pl) -> pl !! i = Some p ->
    foldl (fun sc planet => update_planet time planet sc) sc pl !! mesh p =
    advance time p <$> sc !! mesh p.
Proof.
  induction pl as [|q pl IH]; intros sc i p Hnd Hi; [done|].
  rewrite fmap_cons in Hnd. apply NoDup_cons in Hnd as [Hq Hnd].
  destruct i as [|i]; simpl in *.
  - injection Hi as ->.
    rewrite foldl_update_lookup_ne.
    + unfold update_planet. apply list_lookup_alter_eq.
    + intros r Hr Heq. apply Hq. rewrite <- Heq.
      apply list_elem_of_fmap. by exists r.
  - rewrite (IH _ i) by done.
    unfold update_planet. rewrite list_lookup_alter_ne; [done|].
    intros Heq. apply Hq. rewrite Heq.
    apply list_elem_of_fmap. exists p. split; [done|].
    by apply list_elem_of_lookup_2 with i.
Qed.

Lemma mesh_built_planets (reg : Registry F) :
  mesh <$> built_planets reg = seq 3 (numberOfBodies reg).
Proof.
  apply list_eq. intros i. unfold built_planets, numberOfBodies.
  rewrite list_lookup_fmap, list_lookup_imap.
  destruct (planetTextures reg !! i) as [t|] eqn:Ht; simpl.
  - apply lookup_lt_Some in Ht. by rewrite lookup_seq_lt.
  - apply lookup_ge_None in Ht. by rewrite lookup_seq_ge.
Qed.

Lemma NoDup_mesh_built_planets (reg : Registry F) :
  NoDup (mesh <$> built_planets reg).
Proof. rewrite mesh_built_planets. apply NoDup_seq. Qed.

Lemma built_planets_mesh (reg : Registry F) (p : Planet F) :
  p ∈ built_planets reg -> 3 <= mesh p < 3 + numberOfBodies reg.
Proof.
  intros Hp.
  assert (mesh p ∈ seq 3 (numberOfBodies reg)) as Hin.
  { rewrite <- mesh_built_planets. apply list_elem_of_fmap. by exists p. }
  apply elem_of_seq in Hin. lia.
Qed.

Lemma animate_scene (now : F) (w : World F) :
  scene (animate now w) =
  foldl (fun sc planet => update_planet (fmul now (dec 5 4)) planet sc)
    (alter (fun o => set_rotation_y (fadd (vy (rotation o)) (dec 1 2)) o)
       (sun w) (scene w))
    (planets w).
Proof. reflexivity. Qed.

Lemma animate_same_shape (now : F) (w : World F) :
  Forall2 same_shape (scene w) (scene (animate now w)).
Proof.
  rewrite animate_scene.
  eapply Forall2_same_shape_trans; [|apply foldl_update_same_shape].
  apply alter_same_shape. intros o. by split.
Qed.

Lemma animate_lookup_body (reg : Registry F) (now : F) (w : World F) (i : nat) :
  planets w = built_planets reg -> sun w = 2 -> i < numberOfBodies reg ->
  scene (animate now w) !! (3 + i) =
  advance (fmul now (dec 5 4)) (built_entry reg (3 + i) i)
    <$> scene w !! (3 + i).
Proof.
  intros Hpl Hsun Hi. rewrite animate_scene, Hpl, Hsun.
  pose proof (foldl_update_lookup (fmul now (dec 5 4)) (built_planets reg)
    (alter (fun o => set_rotation_y (fadd (vy (rotation o)) (dec 1 2)) o)
           2 (scene w))
    i (built_entry reg (3 + i) i) (NoDup_mesh_built_planets reg)
    (built_planets_lookup reg i Hi)) as Hl.
  cbn [mesh built_entry] in Hl. rewrite Hl.
  by rewrite list_lookup_alter_ne by lia.
Qed.

Lemma animate_lookup_sun (reg : Registry F) (now : F) (w : World F) :
  planets w = built_planets reg -> sun w = 2 ->
  scene (animate now w) !! 2 =
  (fun o => set_rotation_y (fadd (vy (rotation o)) (dec 1 2)) o)
    <$> scene w !! 2.
Proof.
  intros Hpl Hsun. rewrite animate_scene, Hpl, Hsun.
  rewrite foldl_update_lookup_ne.
  - apply list_lookup_alter_eq.
  - intros p Hp. apply built_planets_mesh in Hp. lia.
Qed.

Lemma animate_lookup_other (reg : Registry F) (now : F) (w : World F) (j : nat) :
  planets w = built_planets reg -> sun w = 2 ->
  j <> 2 -> ~ (3 <= j < 3 + numberOfBodies reg) ->
  scene (animate now w) !! j = scene w !! j.
Proof.
  intros Hpl Hsun Hj2 Hj. rewrite animate_scene, Hpl, Hsun.
  rewrite foldl_update_lookup_ne.
  - by apply list_lookup_alter_ne.
  - intros p Hp Heq. apply built_planets_mesh in Hp. lia.
Qed.

(** *** The invariant *)

Lemma built_scene_lookup_body (reg : Registry F) (i : nat) (t : string) :
  planetTextures reg !! i = Some t ->
  built_scene reg !! (3 + i) = Some (ring_on reg i (built_body reg i t)).
Proof.
  intros Ht. unfold built_scene.
  rewrite lookup_app_r by (simpl; lia).
  replace (3 + i - length (base_scene (F:=F))) with i by (simpl; lia).
  rewrite lookup_app_l by (rewrite length_imap; by eapply lookup_lt_Some).
  by rewrite list_lookup_imap, Ht.
Qed.

Lemma length_built_scene (reg : Registry F) :
  length (built_scene reg) =
  3 + numberOfBodies reg + length (planetDistances reg).
Proof.
  unfold built_scene, numberOfBodies.
  rewrite !length_app, length_imap, length_fmap. simpl. lia.
Qed.

Lemma ring_on_position (reg : Registry F) (i : nat) (o : Object3D F) :
  position (ring_on reg i o) = position o.
Proof. unfold ring_on. by destruct (decide _). Qed.

Lemma scene_inv_built (reg : Registry F) (iw ih dpr : F) (e : Element) :
  scene_inv reg (built_world reg iw ih dpr e).
Proof.
  split; [done|]. split; [done|]. split.
  - apply Forall2_same_shape_refl.
  - intros i o Hi Ho.
    change (built_scene reg !! (3 + i) = Some o) in Ho.
    destruct (lookup_lt_is_Some_2 (planetTextures reg) i Hi) as [t Ht].
    rewrite (built_scene_lookup_body reg i t Ht) in Ho.
    injection Ho as <-. by rewrite ring_on_position.
Qed.

Lemma scene_inv_animate (reg : Registry F) (now : F) (w : World F) :
  scene_inv reg w -> scene_inv reg (animate now w).
Proof.
  intros (Hpl & Hsun & Hshape & Hy).
  split; [done|]. split; [done|]. split.
  - eapply Forall2_same_shape_trans; [exact Hshape|].
    apply animate_same_shape.
  - intros i o Hi Ho.
    rewrite (animate_lookup_body reg) in Ho by done.
    destruct (scene w !! (3 + i)) as [o0|] eqn:Ho0; [|done].
    injection Ho as <-. simpl. by apply (Hy i).
Qed.

Lemma Inv_mounted (reg : Registry F) (iw ih dpr now : F) (e : Element) :
  Inv reg (mounted reg iw ih dpr now e).
Proof.
  split; [|done].
  apply (scene_inv_animate reg now (built_world reg iw ih dpr e)).
  apply scene_inv_built.
Qed.

Lemma frame_eq (now : F) (w : World F) :
  rafQueue w = 1 -> frame now w = animate now (with_rafQueue 0 w).
Proof. intros Hq. unfold frame. by rewrite Hq. Qed.

Lemma resize_eq (iw ih : F) (w : World F) :
  resizeListeners w = 1 -> resize iw ih w = on_resize (with_window iw ih w).
Proof. intros Hq. unfold resize. by rewrite Hq. Qed.

Lemma Inv_frame (reg : Registry F) (now : F) (w : World F) :
  Inv reg w -> Inv reg (frame now w).
Proof.
  intros (Hs & Hq & Hl). rewrite frame_eq by done.
  split; [|by rewrite <- Hl].
  by apply (scene_inv_animate reg now (with_rafQueue 0 w)).
Qed.

Lemma Inv_resize (reg : Registry F) (iw ih : F) (w : World F) :
  Inv reg w -> Inv reg (resize iw ih w).
Proof. intros (Hs & Hq & Hl). by rewrite resize_eq by done. Qed.

Lemma Inv_cleanup (reg : Registry F) (w w' : World F) :
  Inv reg w -> cleanup w = Ok w' -> Inv reg w'.
Proof.
  intros HI. unfold cleanup.
  destruct (mountRef_attached w); [|done].
  destruct (removeChild CanvasElement (container w)) as [c'|]; [|done].
  simpl. by intros [= <-].
Qed.

Lemma Inv_after (reg : Registry F) (ev : Event F) (w : World F) :
  Inv reg w -> Inv reg (after ev w).
Proof.
  intros HI. unfold after.
  destruct ev as [now|iw ih| |]; simpl.
  - by apply Inv_frame.
  - by apply Inv_resize.
  - destruct (cleanup w) as [w'|] eqn:Hc; [|done].
    by apply (Inv_cleanup reg w).
  - exact HI.
Qed.

Lemma Inv_run (reg : Registry F) (evs : list (Event F)) :
  forall w : World F, Inv reg w -> Inv reg (run evs w).
Proof.
  induction evs as [|ev evs IH]; intros w HI; [done|].
  apply IH. by apply Inv_after.
Qed.


End BuildLemmas.

(** ** Counting the objects of the scene *)

Section Counting.
Context {F : Type} `{JsNumber F} `{!OrbitControlsLib F}.

Lemma subtree_unfold (o : Object3D F) :
  subtree o = o :: objects (children o).
Proof.
  by destruct o.
Qed.

Lemma objects_cons (o : Object3D F) (l : list (Object3D F)) :
  objects (o :: l) = o :: objects (children o) ++ objects l.
Proof. unfold objects at 1. simpl. by rewrite subtree_unfold. Qed.

Lemma objects_app (l1 l2 : list (Object3D F)) :
  objects (l1 ++ l2) = objects l1 ++ objects l2.
Proof. apply bind_app. Qed.

(** The number of objects that satisfy a test on their kind. *)
Lemma count_same_shape (P : Object3D F -> bool) (l l' : list (Object3D F)) :
  (forall o o', kind o = kind o' -> P o = P o') ->
  Forall2 same_shape l l' ->
  length (filter (fun o => P o = true) (objects l)) =
  length (filter (fun o => P o = true) (objects l')).
Proof.
  intros HP Hl. induction Hl as [|o o' l l' [Hk Hc] _ IH]; [done|].
  rewrite !objects_cons, !filter_cons, !filter_app, <- Hc.
  rewrite (HP o o' Hk).
  destruct (decide (P o' = true)); simpl; rewrite !length_app; lia.
Qed.

Lemma is_ring_kind (o o' : Object3D F) :
  kind o = kind o' -> is_ring o = is_ring o'.
Proof. unfold is_ring. by intros ->. Qed.

Lemma length_objects_same_shape (l l' : list (Object3D F)) :
  Forall2 same_shape l l' -> length (objects l) = length (objects l').
Proof.
  intros Hl. induction Hl as [|o o' l l' [Hk Hc] _ IH]; [done|].
  rewrite !objects_cons, <- Hc. simpl. rewrite !length_app. lia.
Qed.

(** The subtree of a body: the mesh, its label, and the ring on the body
    at [saturnIndex]. *)
Lemma objects_body (reg : Registry F) (i : nat) (t : string) :
  exists body label,
    is_ring body = false /\ is_ring label = false /\
    objects [ring_on reg i (built_body reg i t)] =
    if decide (indexOf "Saturn" (planetNames reg) = Z.of_nat i)
    then [body; label; createSaturnRings (of_Z 2)]
    else [body; label].
Proof.
  unfold ring_on.
  destruct (decide (indexOf "Saturn" (planetNames reg) = Z.of_nat i));
    eexists _, _; (split; [|split]); try reflexivity; reflexivity.
Qed.

Lemma bodies_counts (reg : Registry F) (ts : list string) :
  forall i0 : nat,
    let bodies :=
      imap (fun i t => ring_on reg (i0 + i) (built_body reg (i0 + i) t)) ts in
    let ring :=
      if decide (Z.of_nat i0 <= indexOf "Saturn" (planetNames reg)
                 < Z.of_nat (i0 + length ts))%Z then 1 else 0 in
    length (objects bodies) = 2 * length ts + ring /\
    length (filter (fun o => is_ring o = true) (objects bodies)) = ring.
Proof.
  induction ts as [|t ts IH]; intros i0 bodies ring; subst bodies ring.
  - rewrite decide_False by (simpl; lia). done.
  - destruct (IH (S i0)) as [IHn IHr]. clear IH.
    rewrite imap_cons.
    rewrite (imap_ext _
      (fun i t => ring_on reg (S i0 + i) (built_body reg (S i0 + i) t)))
      by (intros; simpl; by rewrite Nat.add_succ_r).
    change (?x :: ?l) with ([x] ++ l).
    rewrite objects_app, filter_app, !length_app, IHn, IHr.
    rewrite Nat.add_0_r.
    destruct (objects_body reg i0 t) as (b & lb & Hb & Hlb & ->).
    cbn [length].
    destruct (decide (indexOf "Saturn" (planetNames reg) = Z.of_nat i0))
      as [Heq|Hne].
    + rewrite !filter_cons, Hb, Hlb. simpl.
      rewrite decide_False by lia. rewrite decide_True by lia. simpl. lia.
    + rewrite !filter_cons, Hb, Hlb. simpl.
      destruct (decide (_ <= _ < _)%Z), (decide (_ <= _ < _)%Z);
        simpl; lia.
Qed.

Lemma orbits_counts (ds : list F) :
  length (objects (createOrbit <$> ds)) = length ds /\
  length (filter (fun o => is_ring o = true) (objects (createOrbit <$> ds))) = 0.
Proof.
  induction ds as [|d ds [IHn IHr]]; [done|].
  rewrite fmap_cons, objects_cons, filter_cons.
  change (children (createOrbit d)) with (@nil (Object3D F)).
  change (is_ring (createOrbit d)) with false.
  simpl. rewrite IHn. split; [done|]. exact IHr.
Qed.

Lemma indexOf_range (reg : Registry F) :
  registry_wf reg ->
  (if decide (Z.of_nat 0 <= indexOf "Saturn" (planetNames reg)
              < Z.of_nat (0 + length (planetTextures reg)))%Z then 1 else 0)
  = (if decide ("Saturn" ∈ planetNames reg) then 1 else 0).
Proof.
  intros [_ Hn].
  destruct (indexOf_spec "Saturn" (planetNames reg))
    as [[Hnot Heq]|(k & Heq & Hk & _)]; rewrite Heq.
  - rewrite decide_False by lia. by rewrite decide_False.
  - rewrite decide_True by (apply lookup_lt_Some in Hk; lia).
    rewrite decide_True; [done|]. by eapply list_elem_of_lookup_2.
Qed.

(** The scene built from a registry of [n] bodies has [2n + 3] children and
    holds [3n + 3] objects, and one more when a body is named Saturn. *)
Lemma built_scene_counts (reg : Registry F) :
  registry_wf reg ->
  let ring := if decide ("Saturn" ∈ planetNames reg) then 1 else 0 in
  length (built_scene reg) = 2 * numberOfBodies reg + 3 /\
  length (objects (built_scene reg)) = 3 * numberOfBodies reg + 3 + ring /\
  length (filter (fun o => is_ring o = true) (objects (built_scene reg)))
  = ring.
Proof.
  intros Hwf ring. subst ring. rewrite <- (indexOf_range reg Hwf).
  destruct (bodies_counts reg (planetTextures reg) 0) as [Hn Hr].
  destruct (orbits_counts (planetDistances reg)) as [Hon Hor].
  cbn zeta in Hn, Hr.
  rewrite length_built_scene. destruct Hwf as [Hd _].
  split; [unfold numberOfBodies; lia|].
  unfold built_scene. rewrite !objects_app, !filter_app, !length_app.
  change (fun i t => ring_on reg i (built_body reg i t))
    with (fun i t => ring_on reg (0 + i) (built_body reg (0 + i) t)).
  rewrite Hn, Hr, Hon, Hor. unfold numberOfBodies.
  change (length (objects (base_scene (F:=F)))) with 3.
  change (length (filter _ (objects (base_scene (F:=F))))) with 0.
  lia.
Qed.

End Counting.

(** ** The mounted component *)

Section Mounted.
Context {F : Type} `{JsNumber F} `{!OrbitControlsLib F}.

Lemma Inv_length_scene (reg : Registry F) (w : World F) :
  Inv reg w -> length (scene w) = length (built_scene reg).
Proof. intros ((_ & _ & Hs & _) & _). symmetry. by eapply Forall2_length. Qed.

Lemma Inv_planets_lookup (reg : Registry F) (w : World F) (i : nat)
    (p : Planet F) :
  Inv reg w -> planets w !! i = Some p ->
  i < numberOfBodies reg /\ p = built_entry reg (3 + i) i.
Proof.
  intros ((Hpl & _) & _) Hp. rewrite Hpl in Hp.
  assert (i < numberOfBodies reg) as Hi.
  { apply lookup_lt_Some in Hp. by rewrite length_built_planets in Hp. }
  split; [done|]. rewrite built_planets_lookup in Hp by done. congruence.
Qed.

(** A frame writes the transform of every body, whatever happened
    before. *)
Lemma frame_body (reg : Registry F) (w : World F) (now : F) (i : nat)
    (p : Planet F) :
  Inv reg w -> planets w !! i = Some p ->
  exists o,
    scene w !! mesh p = Some o /\
    vy (position o) = of_Z 0 /\
    scene (frame now w) !! mesh p = Some (advance (fmul now (dec 5 4)) p o).
Proof.
  intros HI Hp.
  destruct (Inv_planets_lookup reg w i p HI Hp) as [Hi ->].
  pose proof (Inv_length_scene reg w HI) as Hlen.
  rewrite length_built_scene in Hlen.
  destruct (lookup_lt_is_Some_2 (scene w) (3 + i)) as [o Ho]; [lia|].
  destruct HI as ((Hpl & Hsun & Hs & Hy) & Hq & Hl).
  exists o. cbn [mesh built_entry]. split; [done|]. split; [by apply (Hy i)|].
  rewrite frame_eq by done.
  rewrite (animate_lookup_body reg) by done.
  change (scene (with_rafQueue 0 w)) with (scene w). by rewrite Ho.
Qed.

(** The first call of [animate], made by the effect itself. *)
Lemma mounted_body (reg : Registry F) (iw ih dpr now : F) (e : Element)
    (i : nat) (t : string) :
  planetTextures reg !! i = Some t ->
  scene (mounted reg iw ih dpr now e) !! (3 + i) =
  Some (advance (fmul now (dec 5 4)) (built_entry reg (3 + i) i)
          (ring_on reg i (built_body reg i t))).
Proof.
  intros Ht.
  change (scene (mounted reg iw ih dpr now e))
    with (scene (animate now (built_world reg iw ih dpr e))).
  rewrite (animate_lookup_body reg) by
    (try done; by eapply lookup_lt_Some).
  change (scene (built_world reg iw ih dpr e)) with (built_scene reg).
  by rewrite (built_scene_lookup_body reg i t).
Qed.

Lemma frame_scene_other (now : F) (w : World F) :
  planets (frame now w) = planets w /\ sun (frame now w) = sun w /\
  container (frame now w) = container w /\
  mountRef_attached (frame now w) = mountRef_attached w /\
  resizeListeners (frame now w) = resizeListeners w.
Proof.
  unfold frame. generalize (rafQueue w). intros n.
  induction n as [|n IH]; [done|]. simpl. exact IH.
Qed.

Lemma resize_other (iw ih : F) (w : World F) :
  scene (resize iw ih w) = scene w /\ planets (resize iw ih w) = planets w /\
  container (resize iw ih w) = container w /\
  mountRef_attached (resize iw ih w) = mountRef_attached w /\
  rafQueue (resize iw ih w) = rafQueue w /\
  camera_position (camera (resize iw ih w)) = camera_position (camera w).
Proof.
  unfold resize. generalize (resizeListeners w). intros n.
  induction n as [|n IH]; [done|]. simpl. exact IH.
Qed.

Lemma cleanup_other (w w' : World F) :
  cleanup w = Ok w' ->
  scene w' = scene w /\ planets w' = planets w /\ rafQueue w' = rafQueue w /\
  camera w' = camera w /\ renderer w' = renderer w.
Proof.
  unfold cleanup. destruct (mountRef_attached w); [|done].
  destruct (removeChild CanvasElement (container w)) as [c'|]; [|done].
  simpl. by intros [= <-].
Qed.

(** *** The number of objects and the ring *)

Lemma Inv_counts (reg : Registry F) (w : World F) :
  registry_wf reg -> Inv reg w ->
  let ring := if decide ("Saturn" ∈ planetNames reg) then 1 else 0 in
  length (scene w) = 2 * numberOfBodies reg + 3 /\
  length (objects (scene w)) = 3 * numberOfBodies reg + 3 + ring /\
  length (filter (fun o => is_ring o = true) (objects (scene w))) = ring.
Proof.
  intros Hwf HI ring.
  destruct (built_scene_counts reg Hwf) as (Hn & Ho & Hr).
  pose proof (Inv_length_scene reg w HI) as Hlen.
  destruct HI as ((_ & _ & Hs & _) & _).
  rewrite Hlen, <- (length_objects_same_shape _ _ Hs).
  rewrite <- (count_same_shape is_ring _ _ is_ring_kind Hs).
  done.
Qed.

(** The body at [saturnIndex] carries the name Saturn and one ring. *)
Lemma Inv_saturn (reg : Registry F) (w : World F) :
  registry_wf reg -> Inv reg w -> "Saturn" ∈ planetNames reg ->
  exists (k : nat) (o : Object3D F),
    indexOf "Saturn" (planetNames reg) = Z.of_nat k /\
    planetNames reg !! k = Some "Saturn" /\
    scene w !! (3 + k) = Some o /\
    body_name o = Some "Saturn" /\
    rings_of o = [createSaturnRings (of_Z 2)].
Proof.
  intros [Hd Hn] ((_ & _ & Hs & _) & _) Hin.
  destruct (indexOf_spec "Saturn" (planetNames reg))
    as [[Hnot _]|(k & Heq & Hk & _)]; [done|].
  assert (k < length (planetTextures reg)) as Hlt.
  { apply lookup_lt_Some in Hk. lia. }
  destruct (lookup_lt_is_Some_2 _ _ Hlt) as [t Ht].
  pose proof (built_scene_lookup_body reg k t Ht) as Hb.
  destruct (Forall2_lookup_l _ _ _ _ _ Hs Hb) as (o & Ho & _ & Hc).
  exists k, o. repeat (split; [done|]).
  unfold body_name, rings_of. rewrite <- Hc. unfold ring_on.
  rewrite decide_True by done. cbn [children add built_body app head].
  split; [|done]. simpl. exact Hk.
Qed.

(** C4 (as amended). After mount, and in every later state, the scene
    has [2 * numberOfBodies + 3] children (two lights, the sun, one mesh
    and one orbit line for each body) and the scene graph holds
    [3 * numberOfBodies + 3] objects (the label of each body is a child of
    its mesh), and one more, the ring, when a body is named Saturn. *)
Theorem scene_object_count (reg : Registry F) (iw ih dpr now : F)
    (e : Element) :
  registry_wf reg ->
  exists w0,
    mount reg iw ih dpr now (Some e) = Ok w0 /\
    forall evs,
      length (scene (run evs w0)) = 2 * numberOfBodies reg + 3 /\
      length (objects (scene (run evs w0))) =
      3 * numberOfBodies reg + 3
      + (if decide ("Saturn" ∈ planetNames reg) then 1 else 0).
Proof.
  intros Hwf. eexists. split; [by apply mount_eq|].
  intros evs.
  destruct (Inv_counts reg (run evs (mounted reg iw ih dpr now e)) Hwf)
    as (Hn & Ho & _); [apply Inv_run, Inv_mounted|done].
Qed.

(** C8. After the scene build, when a body is named Saturn there is
    exactly one ring attachment in the scene graph, and it is a child of
    the body at the first index named Saturn, the body that carries that
    name; when no body is named Saturn the build succeeds all the same and
    there is no ring attachment. *)
Theorem saturn_ring (reg : Registry F) (iw ih dpr now : F) (e : Element) :
  registry_wf reg ->
  exists w0,
    mount reg iw ih dpr now (Some e) = Ok w0 /\
    forall evs,
      let rings :=
        filter (fun o => is_ring o = true) (objects (scene (run evs w0))) in
      ("Saturn" ∈ planetNames reg ->
       length rings = 1 /\
       exists (k : nat) (o : Object3D F),
         planetNames reg !! k = Some "Saturn" /\
         scene (run evs w0) !! (3 + k) = Some o /\
         body_name o = Some "Saturn" /\
         length (rings_of o) = 1) /\
      ("Saturn" ∉ planetNames reg -> length rings = 0).
Proof.
  intros Hwf. eexists. split; [by apply mount_eq|].
  intros evs rings. subst rings.
  assert (Inv reg (run evs (mounted reg iw ih dpr now e))) as HI
    by apply Inv_run, Inv_mounted.
  destruct (Inv_counts reg _ Hwf HI) as (_ & _ & Hr).
  split.
  - intros Hin. rewrite Hr. rewrite decide_True by done. split; [done|].
    destruct (Inv_saturn reg _ Hwf HI Hin) as (k & o & _ & Hk & Ho & Hb & Hrs).
    exists k, o. by rewrite Hrs.
  - intros Hnot. rewrite Hr. by rewrite decide_False.
Qed.

(** *** The cleanup *)

Lemma remove_first_not_in (c : DomNode) (l : list DomNode) :
  c ∉ l -> remove_first c l = l.
Proof.
  induction l as [|n l IH]; [done|]. intros Hnot.
  apply not_elem_of_cons in Hnot as [Hne Hnot]. simpl.
  rewrite decide_False by done. by rewrite IH.
Qed.

Lemma remove_first_snoc (c : DomNode) (l : list DomNode) :
  c ∉ l -> remove_first c (l ++ [c]) = l.
Proof.
  induction l as [|n l IH]; intros Hnot; simpl.
  - by rewrite decide_True.
  - apply not_elem_of_cons in Hnot as [Hne Hnot].
    rewrite decide_False by done. by rewrite IH.
Qed.

Lemma container_mounted (reg : Registry F) (iw ih dpr now : F)
    (e : Element) :
  container (mounted reg iw ih dpr now e) =
  set_style
    "url('/assets/textures/stars.jpg') no-repeat center center fixed"
    "cover" (appendChild CanvasElement e) /\
  mountRef_attached (mounted reg iw ih dpr now e) = true.
Proof. split; reflexivity. Qed.

Lemma canvas_once_mounted (reg : Registry F) (iw ih dpr now : F)
    (e : Element) :
  canvas_once (mounted reg iw ih dpr now e) /\
  CanvasElement ∈ childNodes (container (mounted reg iw ih dpr now e)).
Proof.
  assert (CanvasElement ∉ filter (fun n => n <> CanvasElement) (childNodes e))
    as Hnot.
  { intros Hin. apply list_elem_of_filter in Hin as [Hne _]. done. }
  unfold canvas_once.
  rewrite (proj1 (container_mounted reg iw ih dpr now e)).
  cbn [childNodes set_style appendChild]. split.
  - by rewrite remove_first_snoc.
  - apply elem_of_app. right. by left.
Qed.

(** What the cleanup does, by the state it finds. *)
Lemma cleanup_cases (w : World F) :
  (mountRef_attached w = false /\ cleanup w = Throw TypeError) \/
  (mountRef_attached w = true /\ (CanvasElement ∉ childNodes (container w)) /\
   cleanup w = Throw NotFoundError) \/
  (mountRef_attached w = true /\ CanvasElement ∈ childNodes (container w) /\
   exists w',
     cleanup w = Ok w' /\
     w' = with_container
            {| childNodes := remove_first CanvasElement (childNodes (container w));
               style_background := style_background (container w);
               style_backgroundSize := style_backgroundSize (container w) |}
            w).
Proof.
  unfold cleanup, removeChild.
  destruct (mountRef_attached w); [|by left].
  right. destruct (decide (CanvasElement ∈ childNodes (container w))).
  - right. repeat (split; [done|]). by eexists.
  - by left.
Qed.

(** An event changes the container only when it is a cleanup that
    succeeds, and the ref only when it detaches it. *)
Lemma after_container (ev : Event F) (w : World F) :
  (container (after ev w) = container w) \/
  (ev = Unmount /\ exists w', cleanup w = Ok w' /\ after ev w = w').
Proof.
  unfold after. destruct ev as [now|iw ih| |]; simpl.
  - left. apply frame_scene_other.
  - left. apply resize_other.
  - destruct (cleanup w) as [w'|]; [|by left]. right. eauto.
  - by left.
Qed.

Lemma after_attached (ev : Event F) (w : World F) :
  mountRef_attached (after ev w) =
  match ev with
  | DetachRef => false
  | _ => mountRef_attached w
  end.
Proof.
  unfold after. destruct ev as [now|iw ih| |]; simpl.
  - apply frame_scene_other.
  - apply resize_other.
  - destruct (cleanup_cases w) as [[_ ->]|[(_ & _ & ->)|(_ & _ & w' & -> & ->)]];
      done.
  - done.
Qed.

Lemma detached_run (evs : list (Event F)) :
  forall w : World F,
    mountRef_attached w = false -> mountRef_attached (run evs w) = false.
Proof.
  induction evs as [|ev evs IH]; intros w Hw; [done|].
  apply IH. rewrite after_attached. by destruct ev.
Qed.

Lemma attached_run (evs : list (Event F)) :
  forall w : World F,
    DetachRef ∉ evs -> mountRef_attached (run evs w) = mountRef_attached w.
Proof.
  induction evs as [|ev evs IH]; intros w Hno; [done|].
  apply not_elem_of_cons in Hno as [Hne Hno].
  change (run (ev :: evs) w) with (run evs (after ev w)).
  rewrite IH by done. rewrite after_attached. by destruct ev.
Qed.

Lemma cleanup_detached (w : World F) :
  mountRef_attached w = false -> cleanup w = Throw TypeError.
Proof. intros Hw. unfold cleanup. by rewrite Hw. Qed.

Lemma container_run_no_cleanup (evs : list (Event F)) :
  forall w : World F,
    Unmount ∉ evs -> container (run evs w) = container w.
Proof.
  induction evs as [|ev evs IH]; intros w Hno; [done|].
  apply not_elem_of_cons in Hno as [Hne Hno].
  change (run (ev :: evs) w) with (run evs (after ev w)).
  rewrite IH by done.
  destruct (after_container ev w) as [Heq|[Heq _]]; [done|congruence].
Qed.

Lemma container_run_detached (evs : list (Event F)) :
  forall w : World F,
    mountRef_attached w = false -> container (run evs w) = container w.
Proof.
  induction evs as [|ev evs IH]; intros w Hw; [done|].
  change (run (ev :: evs) w) with (run evs (after ev w)).
  rewrite IH by (rewrite after_attached; by destruct ev).
  destruct (after_container ev w) as [Heq|(_ & w' & Hc & _)]; [done|].
  by rewrite cleanup_detached in Hc.
Qed.

Lemma cleanup_canvas_once (w w' : World F) :
  canvas_once w -> cleanup w = Ok w' -> canvas_gone w'.
Proof.
  intros Hnot Hc.
  destruct (cleanup_cases w)
    as [[_ Ht]|[(_ & _ & Ht)|(_ & _ & w1 & Hok & ->)]];
    rewrite Hc in *; try done.
  by injection Hok as ->.
Qed.

Lemma canvas_once_run (evs : list (Event F)) :
  forall w : World F, canvas_once w -> canvas_once (run evs w).
Proof.
  induction evs as [|ev evs IH]; intros w Hw; [done|].
  apply IH. destruct (after_container ev w) as [Heq|(_ & w' & Hc & ->)].
  - unfold canvas_once. by rewrite Heq.
  - pose proof (cleanup_canvas_once w w' Hw Hc) as Hgone.
    unfold canvas_once. by rewrite remove_first_not_in.
Qed.

Lemma cleanup_canvas_gone (w : World F) :
  canvas_gone w ->
  cleanup w = Throw TypeError \/ cleanup w = Throw NotFoundError.
Proof.
  intros Hgone.
  destruct (cleanup_cases w)
    as [[_ Ht]|[(_ & _ & Ht)|(_ & Hin & _)]]; [by left|by right|done].
Qed.

Lemma canvas_gone_run (evs : list (Event F)) :
  forall w : World F, canvas_gone w -> canvas_gone (run evs w).
Proof.
  induction evs as [|ev evs IH]; intros w Hw; [done|].
  apply IH. destruct (after_container ev w) as [Heq|(_ & w' & Hc & _)].
  - unfold canvas_gone. by rewrite Heq.
  - destruct (cleanup_canvas_gone w Hw) as [Ht|Ht]; by rewrite Ht in Hc.
Qed.

(** After a call of the cleanup, whatever it did, every later call
    throws. *)
Lemma cleanup_after_cleanup (evs : list (Event F)) (w : World F) :
  canvas_once w ->
  cleanup (run evs (after Unmount w)) = Throw TypeError \/
  cleanup (run evs (after Unmount w)) = Throw NotFoundError.
Proof.
  intros Honce. unfold after. simpl.
  destruct (cleanup_cases w)
    as [[Hd ->]|[(_ & Hgone & ->)|(_ & _ & w' & Hok & Hw')]].
  - left. by apply cleanup_detached, detached_run.
  - by apply cleanup_canvas_gone, canvas_gone_run.
  - rewrite Hok. apply cleanup_canvas_gone, canvas_gone_run.
    by apply (cleanup_canvas_once w).
Qed.

Lemma run_app (evs evs' : list (Event F)) (w : World F) :
  run (evs ++ evs') w = run evs' (run evs w).
Proof. apply foldl_app. Qed.

(** C5 (as amended). The cleanup is not safe to call twice. It reads
    [mountRef.current] when it runs. The first call detaches the canvas
    when the ref is still attached; when React has detached the ref
    before (as React 17 and later do at unmount) the call raises
    [TypeError] and the canvas stays in the container. A call that comes
    after another call always raises an error, whatever frames and resizes
    happen in between: [NotFoundError] after a call that succeeded, as long
    as the ref is attached, and [TypeError] once it is detached. *)
Theorem cleanup_twice_throws (reg : Registry F) (iw ih dpr now : F)
    (e : Element) :
  registry_wf reg ->
  exists w0,
    mount reg iw ih dpr now (Some e) = Ok w0 /\
    (forall evs,
       Unmount ∉ evs -> DetachRef ∉ evs ->
       exists w1,
         step Unmount (run evs w0) = Ok w1 /\
         CanvasElement ∉ childNodes (container w1)) /\
    (forall evs1 evs2,
       step Unmount (run (evs1 ++ DetachRef :: evs2) w0) = Throw TypeError) /\
    (forall evs1 evs2,
       Unmount ∉ evs1 ->
       CanvasElement ∈
         childNodes (container (run (evs1 ++ DetachRef :: evs2) w0))) /\
    (forall evs1 evs2,
       step Unmount (run (evs1 ++ Unmount :: evs2) w0) = Throw TypeError \/
       step Unmount (run (evs1 ++ Unmount :: evs2) w0) = Throw NotFoundError) /\
    (forall evs1 w1,
       step Unmount (run evs1 w0) = Ok w1 ->
       forall evs2,
         DetachRef ∉ evs2 ->
         step Unmount (run evs2 w1) = Throw NotFoundError).
Proof.
  intros Hwf. eexists. split; [by apply mount_eq|].
  destruct (canvas_once_mounted reg iw ih dpr now e) as [Honce Hin].
  destruct (container_mounted reg iw ih dpr now e) as [_ Hatt].
  set (w0 := mounted reg iw ih dpr now e) in *.
  split; [|split; [|split; [|split]]].
  - intros evs Hnu Hnd. cbn [step].
    destruct (cleanup_cases (run evs w0))
      as [[Hd _]|[(_ & Hgone & _)|(_ & _ & w' & Hok & Hw')]].
    + rewrite attached_run in Hd by done. congruence.
    + rewrite container_run_no_cleanup in Hgone by done. done.
    + exists w'. split; [done|].
      apply (cleanup_canvas_once (run evs w0)); [|done].
      by apply canvas_once_run.
  - intros evs1 evs2. cbn [step]. rewrite run_app.
    apply cleanup_detached.
    change (run (DetachRef :: evs2) (run evs1 w0))
      with (run evs2 (after DetachRef (run evs1 w0))).
    by apply detached_run.
  - intros evs1 evs2 Hnu. rewrite run_app.
    change (run (DetachRef :: evs2) (run evs1 w0))
      with (run evs2 (after DetachRef (run evs1 w0))).
    rewrite container_run_detached by done.
    change (container (after DetachRef (run evs1 w0)))
      with (container (run evs1 w0)).
    by rewrite container_run_no_cleanup.
  - intros evs1 evs2. cbn [step]. rewrite run_app.
    change (run (Unmount :: evs2) (run evs1 w0))
      with (run evs2 (after Unmount (run evs1 w0))).
    by apply cleanup_after_cleanup, canvas_once_run.
  - intros evs1 w1 Hc evs2 Hnd. cbn [step] in *.
    assert (canvas_gone (run evs2 w1)) as Hgone.
    { apply canvas_gone_run, (cleanup_canvas_once (run evs1 w0)); [|done].
      by apply canvas_once_run. }
    destruct (cleanup_cases (run evs2 w1))
      as [[Hd _]|[(_ & _ & Ht)|(_ & Hin' & _)]]; [|done|done].
    rewrite attached_run in Hd by done.
    destruct (cleanup_cases (run evs1 w0))
      as [[_ Ht]|[(_ & _ & Ht)|(Hatt1 & _ & w' & Hok & ->)]];
      rewrite Hc in *; try done.
    injection Hok as ->. cbn [mountRef_attached with_container] in Hd.
    congruence.
Qed.

(** *** Resizing *)

Lemma run_resizes_camera_position (sizes : list (F * F)) :
  forall w : World F,
    camera_position (camera (run ((fun s => Resize s.1 s.2) <$> sizes) w)) =
    camera_position (camera w).
Proof.
  induction sizes as [|[iw ih] sizes IH]; intros w; [done|].
  rewrite fmap_cons. unfold run. simpl.
  fold (run ((fun s => Resize s.1 s.2) <$> sizes) (after (Resize iw ih) w)).
  rewrite IH. unfold after. simpl. apply resize_other.
Qed.

(** The pixel ratio is set at mount, from [window.devicePixelRatio], and
    nothing changes it afterwards. *)
Lemma pixelRatio_mounted (reg : Registry F) (iw ih dpr now : F)
    (e : Element) :
  pixelRatio (renderer (mounted reg iw ih dpr now e)) = dpr.
Proof. reflexivity. Qed.

Lemma pixelRatio_frame (now : F) (w : World F) :
  pixelRatio (renderer (frame now w)) = pixelRatio (renderer w).
Proof.
  unfold frame. generalize (rafQueue w). intros n.
  induction n as [|n IH]; [done|]. simpl. exact IH.
Qed.

Lemma pixelRatio_resize (iw ih : F) (w : World F) :
  pixelRatio (renderer (resize iw ih w)) = pixelRatio (renderer w).
Proof.
  unfold resize. generalize (resizeListeners w). intros n.
  induction n as [|n IH]; [done|]. simpl. exact IH.
Qed.

Lemma pixelRatio_after (ev : Event F) (w : World F) :
  pixelRatio (renderer (after ev w)) = pixelRatio (renderer w).
Proof.
  unfold after. destruct ev as [now|iw ih| |]; simpl.
  - apply pixelRatio_frame.
  - apply pixelRatio_resize.
  - destruct (cleanup w) as [w'|] eqn:Hc; [|done].
    by destruct (cleanup_other w w' Hc) as (_ & _ & _ & _ & ->).
  - done.
Qed.

Lemma pixelRatio_run (evs : list (Event F)) :
  forall w : World F,
    pixelRatio (renderer (run evs w)) = pixelRatio (renderer w).
Proof.
  induction evs as [|ev evs IH]; intros w; [done|].
  change (run (ev :: evs) w) with (run evs (after ev w)).
  by rewrite IH, pixelRatio_after.
Qed.

(** What the one resize listener does to the camera and the renderer. *)
Lemma resize_devices (iw ih : F) (w : World F) :
  resizeListeners w = 1 ->
  camera (resize iw ih w) =
    updateProjectionMatrix (set_aspect (fdiv iw ih) (camera w)) /\
  renderer (resize iw ih w) = setSize iw ih (renderer w).
Proof. intros Hl. by rewrite resize_eq by done. Qed.

(** C9 (as amended). In every state of a mounted component, a resize of
    the window to [(iw, ih)] sets the aspect ratio of the camera to
    [iw / ih], recomputes the projection with it, gives the renderer the
    size [(iw, ih)], and leaves the position of the camera as it was. The
    pixel ratio of the renderer is still the [devicePixelRatio] read at
    mount, and the drawing buffer of the canvas gets
    [floor (iw * devicePixelRatio)] by [floor (ih * devicePixelRatio)]
    pixels, not [(iw, ih)]. The position of the camera is the same after
    every sequence of resizes. *)
Theorem resize_updates_aspect_and_size (reg : Registry F)
    (iw0 ih0 dpr now : F) (e : Element) :
  registry_wf reg ->
  exists w0,
    mount reg iw0 ih0 dpr now (Some e) = Ok w0 /\
    forall evs,
      let w := run evs w0 in
      (forall iw ih,
         let w' := after (Resize iw ih) w in
         aspect (camera w') = fdiv iw ih /\
         projection (camera w') =
           (fov (camera w), fdiv iw ih, near (camera w), far (camera w)) /\
         width (renderer w') = iw /\
         height (renderer w') = ih /\
         pixelRatio (renderer w') = dpr /\
         canvas_width (renderer w') = ffloor (fmul iw dpr) /\
         canvas_height (renderer w') = ffloor (fmul ih dpr) /\
         camera_position (camera w') = camera_position (camera w)) /\
      (forall sizes : list (F * F),
         camera_position
           (camera (run ((fun s => Resize s.1 s.2) <$> sizes) w)) =
         camera_position (camera w)).
Proof.
  intros Hwf. eexists. split; [by apply mount_eq|].
  intros evs w. split; [|intros sizes; apply run_resizes_camera_position].
  intros iw ih w'. subst w'.
  assert (Inv reg w) as (_ & _ & Hl) by apply Inv_run, Inv_mounted.
  assert (pixelRatio (renderer w) = dpr) as Hdpr.
  { subst w. by rewrite pixelRatio_run, pixelRatio_mounted. }
  change (after (Resize iw ih) w) with (resize iw ih w).
  destruct (resize_devices iw ih w Hl) as [-> ->].
  cbn [aspect projection camera_position updateProjectionMatrix set_aspect
       fov near far width height pixelRatio canvas_width canvas_height
       setSize].
  by rewrite Hdpr.
Qed.

(** *** Determinism of the update *)


(** *** The loop after the cleanup *)

(** C3 (as amended). The cleanup does not stop the loop, and the loop
    has no stopped state: in every state of a mounted component, also
    after the cleanup has run, one call of [animate] is scheduled, and the
    next frame writes the transform of every body and schedules the
    following call. *)
Theorem frames_go_on_after_cleanup (reg : Registry F) (iw ih dpr now0 : F)
    (e : Element) :
  registry_wf reg ->
  exists w0,
    mount reg iw ih dpr now0 (Some e) = Ok w0 /\
    forall evs1 evs2,
      let w := run (evs1 ++ Unmount :: evs2) w0 in
      rafQueue w = 1 /\
      forall now,
        rafQueue (frame now w) = 1 /\
        forall i p,
          planets w !! i = Some p ->
          exists o,
            scene w !! mesh p = Some o /\
            scene (frame now w) !! mesh p =
              Some (advance (fmul now (dec 5 4)) p o).
Proof.
  intros Hwf. eexists. split; [by apply mount_eq|].
  intros evs1 evs2 w.
  assert (Inv reg w) as HI by apply Inv_run, Inv_mounted.
  split; [apply HI|]. intros now.
  split; [apply (Inv_frame reg now w HI)|].
  intros i p Hp.
  destruct (frame_body reg w now i p HI Hp) as (o & Ho & _ & Hf).
  by exists o.
Qed.

End Mounted.

(** ** The rotation angle *)

Section Rotation.
Context {F : Type} `{JsNumber F} `{!OrbitControlsLib F}.

Lemma count_frames_app (evs evs' : list (Event F)) :
  count_frames (evs ++ evs') = (count_frames evs + count_frames evs')%nat.
Proof.
  induction evs as [|[now|iw ih| |] evs IH]; simpl; [done|lia|done|done|done].
Qed.

Lemma run_frame (now : F) (w : World F) : run [Frame now] w = frame now w.
Proof. reflexivity. Qed.

Lemma after_scene_no_frame (ev : Event F) (w : World F) :
  (forall now, ev <> Frame now) -> scene (after ev w) = scene w.
Proof.
  intros Hev. unfold after. destruct ev as [now|iw ih| |]; simpl.
  - by destruct (Hev now).
  - apply resize_other.
  - destruct (cleanup w) as [w'|] eqn:Hc; [|done]. by apply cleanup_other.
  - done.
Qed.

Lemma Inv_planets_eq (reg : Registry F) (w w' : World F) :
  Inv reg w -> Inv reg w' -> planets w' = planets w.
Proof. intros ((-> & _) & _) ((-> & _) & _). done. Qed.

Lemma add_times_shift (n : nat) (r a : F) :
  add_times n r (fadd a r) = add_times (S n) r a.
Proof. unfold add_times. by rewrite Nat.iter_succ_r. Qed.

Lemma add_times_add (n m : nat) (r a : F) :
  add_times (m + n) r a = add_times m r (add_times n r a).
Proof. unfold add_times. apply Nat.iter_add. Qed.

(** A frame changes [rotation.y] of a body and nothing else of its
    rotation: it adds [rotationSpeed] once. *)
Lemma frame_rotation (reg : Registry F) (w : World F) (now : F) (i : nat)
    (p : Planet F) (o : Object3D F) :
  Inv reg w -> planets w !! i = Some p -> scene w !! mesh p = Some o ->
  exists o',
    scene (frame now w) !! mesh p = Some o' /\
    rotation o' =
      vec3 (vx (rotation o)) (fadd (vy (rotation o)) (rotationSpeed p))
           (vz (rotation o)).
Proof.
  intros HI Hp Ho.
  destruct (frame_body reg w now i p HI Hp) as (o0 & Ho0 & _ & Hf).
  rewrite Ho in Ho0. injection Ho0 as <-.
  eexists. split; [exact Hf|]. reflexivity.
Qed.

Lemma run_rotation (reg : Registry F) (evs : list (Event F)) :
  forall (w : World F) (i : nat) (p : Planet F) (o : Object3D F),
    Inv reg w -> planets w !! i = Some p -> scene w !! mesh p = Some o ->
    exists o',
      scene (run evs w) !! mesh p = Some o' /\
      rotation o' =
        vec3 (vx (rotation o))
             (add_times (count_frames evs) (rotationSpeed p)
                (vy (rotation o)))
             (vz (rotation o)).
Proof.
  induction evs as [|ev evs IH]; intros w i p o HI Hp Ho.
  - exists o. split; [done|]. by destruct (rotation o).
  - pose proof (Inv_after reg ev w HI) as HI'.
    assert (planets (after ev w) !! i = Some p) as Hp'
      by (by rewrite (Inv_planets_eq reg w)).
    change (run (ev :: evs) w) with (run evs (after ev w)).
    destruct ev as [now|iw ih| |].
    + destruct (frame_rotation reg w now i p o HI Hp Ho) as (o1 & Ho1 & Hr1).
      destruct (IH _ i p o1 HI' Hp' Ho1) as (o' & Ho' & Hr').
      exists o'. split; [done|]. rewrite Hr', Hr1.
      cbn [count_frames vx vy vz]. by rewrite add_times_shift.
    + apply (IH _ i); [done|done|]. by rewrite after_scene_no_frame.
    + apply (IH _ i); [done|done|]. by rewrite after_scene_no_frame.
    + apply (IH _ i); [done|done|]. by rewrite after_scene_no_frame.
Qed.

(** The rotation of a body after mount and a history. *)
Lemma rotation_after_run (reg : Registry F) (iw ih dpr now0 : F)
    (e : Element) (evs : list (Event F)) (i : nat) (p : Planet F) :
  planets (mounted reg iw ih dpr now0 e) !! i = Some p ->
  exists o,
    scene (run evs (mounted reg iw ih dpr now0 e)) !! mesh p = Some o /\
    rotation o =
      vec3 (of_Z 0)
           (add_times (1 + count_frames evs) (rotationSpeed p) (of_Z 0))
           (of_Z 0).
Proof.
  intros Hp.
  pose proof (Inv_mounted reg iw ih dpr now0 e) as HI.
  destruct (Inv_planets_lookup reg _ i p HI Hp) as [Hi Hentry].
  destruct (lookup_lt_is_Some_2 (planetTextures reg) i Hi) as [t Ht].
  pose proof (mounted_body reg iw ih dpr now0 e i t Ht) as Ho.
  rewrite <- Hentry in Ho.
  replace (3 + i) with (mesh p) in Ho by (by rewrite Hentry).
  destruct (run_rotation reg evs _ i p _ HI Hp Ho) as (o' & Ho' & Hr').
  exists o'. split; [done|]. rewrite Hr'.
  assert (rotation (advance (fmul now0 (dec 5 4)) p
                      (ring_on reg i (built_body reg i t)))
          = vec3 (of_Z 0) (fadd (of_Z 0) (rotationSpeed p)) (of_Z 0)) as ->.
  { unfold ring_on. by destruct (decide _). }
  cbn [vx vy vz]. by rewrite add_times_shift.
Qed.

Lemma le_add_times (le : F -> F -> Prop) (r a : F) :
  (forall x, le x x) -> (forall x y z, le x y -> le y z -> le x z) ->
  (forall n, le (add_times n r a) (fadd (add_times n r a) r)) ->
  forall n m, le (add_times n r a) (add_times (m + n) r a).
Proof.
  intros Hrefl Htrans Hadd n. induction m as [|m IH]; [apply Hrefl|].
  apply Htrans with (add_times (m + n) r a); [apply IH|].
  apply (Hadd (m + n)).
Qed.

(** C2 (as amended). The rotation angle of a body is a running sum,
    not a product with the time: every call of [animate] adds
    [rotationRate] to it once, whatever the clock reads, so that after
    mount and any history it is [0] with [rotationRate] added
    [1 + number of frames] times, in the arithmetic of JavaScript numbers.
    Hence along a history the angle does not decrease, for every order
    in which adding the rate to an angle the body goes through does not
    go down, and it stays what it is when adding the rate to such an angle
    changes nothing (take equality as the order). With the registry of
    the source, the third body
    (Earth) has the rate [0.01 * (2 + 1)] and the angle
    [(0 + rate) + rate] after mount and one frame, at every clock
    reading. *)
Theorem rotation_counts_frames (reg : Registry F) (iw ih dpr now0 : F)
    (e : Element) :
  registry_wf reg ->
  exists w0,
    mount reg iw ih dpr now0 (Some e) = Ok w0 /\
    (forall evs i p,
       planets w0 !! i = Some p ->
       exists o,
         scene (run evs w0) !! mesh p = Some o /\
         vy (rotation o) =
           add_times (1 + count_frames evs) (rotationSpeed p) (of_Z 0)) /\
    (forall evs now i p o,
       planets w0 !! i = Some p ->
       scene (run evs w0) !! mesh p = Some o ->
       exists o',
         scene (frame now (run evs w0)) !! mesh p = Some o' /\
         vy (rotation o') = fadd (vy (rotation o)) (rotationSpeed p)) /\
    (forall (le : F -> F -> Prop) i p,
       planets w0 !! i = Some p ->
       (forall a, le a a) ->
       (forall a b c, le a b -> le b c -> le a c) ->
       (forall n,
          le (add_times n (rotationSpeed p) (of_Z 0))
             (fadd (add_times n (rotationSpeed p) (of_Z 0))
                (rotationSpeed p))) ->
       forall evs evs' o o',
         scene (run evs w0) !! mesh p = Some o ->
         scene (run (evs ++ evs') w0) !! mesh p = Some o' ->
         le (vy (rotation o)) (vy (rotation o'))) /\
    (reg = solar_registry ->
     exists p,
       planets w0 !! 2%nat = Some p /\
       rotationSpeed p = fmul (dec 1 2) (fadd (of_Z 2) (of_Z 1)) /\
       forall now,
         exists o,
           scene (frame now w0) !! mesh p = Some o /\
           vy (rotation o) =
             fadd (fadd (of_Z 0) (rotationSpeed p)) (rotationSpeed p)).
Proof.
  intros Hwf. eexists. split; [by apply mount_eq|].
  pose proof (Inv_mounted reg iw ih dpr now0 e) as HI0.
  split; [|split; [|split]].
  - intros evs i p Hp.
    destruct (rotation_after_run reg iw ih dpr now0 e evs i p Hp)
      as (o & Ho & Hr).
    exists o. split; [done|]. by rewrite Hr.
  - intros evs now i p o Hp Ho.
    pose proof (Inv_run reg evs _ HI0) as HI.
    assert (planets (run evs (mounted reg iw ih dpr now0 e)) !! i = Some p)
      as Hp' by (by rewrite (Inv_planets_eq reg _ _ HI0 HI)).
    destruct (frame_rotation reg _ now i p o HI Hp' Ho) as (o' & Ho' & Hr').
    exists o'. split; [done|]. by rewrite Hr'.
  - intros le i p Hp Hrefl Htrans Hadd evs evs' o o' Ho Ho'.
    destruct (rotation_after_run reg iw ih dpr now0 e evs i p Hp)
      as (o1 & Ho1 & Hr1).
    destruct (rotation_after_run reg iw ih dpr now0 e (evs ++ evs') i p Hp)
      as (o2 & Ho2 & Hr2).
    rewrite Ho in Ho1. injection Ho1 as <-.
    rewrite Ho' in Ho2. injection Ho2 as <-.
    rewrite Hr1, Hr2, count_frames_app. cbn [vy].
    replace (1 + (count_frames evs + count_frames evs'))
      with (count_frames evs' + (1 + count_frames evs)) by lia.
    by apply (le_add_times le (rotationSpeed p) (of_Z 0) Hrefl Htrans Hadd).
  - intros ->.
    assert (planets (mounted solar_registry iw ih dpr now0 e) !! 2
            = Some (built_entry solar_registry 5 2)) as Hp.
    { destruct HI0 as ((-> & _) & _).
      by rewrite built_planets_lookup by (unfold numberOfBodies; simpl; lia). }
    eexists. split; [exact Hp|]. split; [reflexivity|].
    intros now.
    destruct (rotation_after_run solar_registry iw ih dpr now0 e [Frame now]
                2 _ Hp) as (o & Ho & Hr).
    rewrite run_frame in Ho. exists o. split; [done|]. by rewrite Hr.
Qed.

End Rotation.

(** ** The component over the real numbers *)

Section RealModel.
Context `{!OrbitControlsLib R}.
Local Open Scope R_scope.

(** Evaluate the power of ten of a decimal literal. *)
Ltac dec_eval :=
  unfold dec;
  cbn [of_Z fadd fmul fdiv fcos fsin fsqrt ffloor fround fPI R_JsNumber];
  repeat match goal with
  | |- context [IZR (10 ^ Z.of_nat ?e)] =>
      let v := eval vm_compute in (10 ^ Z.of_nat e)%Z in
      change (10 ^ Z.of_nat e)%Z with v
  | |- context [IZR (Z.of_nat ?n)] =>
      let v := eval vm_compute in (Z.of_nat n) in
      change (Z.of_nat n) with v
  end.

Lemma dec_5_4 : dec 5 4 = 0.0005.
Proof. dec_eval. lra. Qed.

Lemma dec_1_2 : dec 1 2 = 0.01.
Proof. dec_eval. lra. Qed.

Lemma dec_2_2 : dec 2 2 = 0.02.
Proof. dec_eval. lra. Qed.

Lemma solar_registry_wf : registry_wf (F:=R) solar_registry.
Proof. by split. Qed.

Lemma solar_Earth : built_entry (F:=R) solar_registry 5 2 = Earth.
Proof.
  unfold built_entry, Earth. f_equal; dec_eval; lra.
Qed.

Lemma advance_position (t : R) (p : Planet R) (o : Object3D R) :
  vy (position o) = 0 ->
  position (advance t p o) = spec_position t p.
Proof. intros Hy. unfold spec_position. simpl. by rewrite Hy. Qed.

Lemma advance_rotation_y (t : R) (p : Planet R) (o : Object3D R) :
  vy (rotation (advance t p o)) = vy (rotation o) + rotationSpeed p.
Proof. reflexivity. Qed.

Lemma built_body_y (reg : Registry R) (i : nat) (t : string) :
  vy (position (ring_on reg i (built_body reg i t))) = 0.
Proof. by rewrite ring_on_position. Qed.

(** The state of a body after the first call of [animate]. *)
Lemma first_tick_body (reg : Registry R) (iw ih dpr now0 : R) (e : Element)
    (i : nat) (p : Planet R) :
  planets (mounted reg iw ih dpr now0 e) !! i = Some p ->
  exists o,
    scene (mounted reg iw ih dpr now0 e) !! mesh p = Some o /\
    position o = spec_position (now0 * 0.0005) p /\
    vy (rotation o) = rotationSpeed p.
Proof.
  intros Hp.
  destruct (Inv_planets_lookup reg _ i p (Inv_mounted reg iw ih dpr now0 e) Hp)
    as [Hi ->].
  destruct (lookup_lt_is_Some_2 (planetTextures reg) i Hi) as [t Ht].
  eexists. cbn [mesh built_entry].
  split; [by apply mounted_body|]. split.
  - rewrite advance_position by apply built_body_y.
    cbn [fmul R_JsNumber]. by rewrite dec_5_4.
  - rewrite advance_rotation_y. unfold ring_on.
    destruct (decide _); simpl; lra.
Qed.

(** The state of a body after a frame. *)
Lemma frame_body_R (reg : Registry R) (w : World R) (now : R) (i : nat)
    (p : Planet R) :
  Inv reg w -> planets w !! i = Some p ->
  exists o o',
    scene w !! mesh p = Some o /\
    scene (frame now w) !! mesh p = Some o' /\
    position o' = spec_position (now * 0.0005) p /\
    vy (rotation o') = vy (rotation o) + rotationSpeed p.
Proof.
  intros HI Hp.
  destruct (frame_body reg w now i p HI Hp) as (o & Ho & Hy & Hf).
  exists o. eexists. split; [done|]. split; [exact Hf|]. split.
  - rewrite advance_position by exact Hy.
    cbn [fmul R_JsNumber]. by rewrite dec_5_4.
  - apply advance_rotation_y.
Qed.

Lemma solar_planets_Earth (w : World R) :
  Inv solar_registry w -> planets w !! 2%nat = Some Earth.
Proof.
  intros ((Hpl & _) & _). rewrite Hpl.
  rewrite built_planets_lookup by (unfold numberOfBodies; simpl; lia).
  f_equal. apply solar_Earth.
Qed.

Lemma spec_position_Earth_0 (t : R) :
  t = 0 -> spec_position t Earth = vec3 40 0 0.
Proof.
  intros ->. unfold spec_position, Earth. simpl.
  rewrite Rmult_0_l, cos_0, sin_0. f_equal; lra.
Qed.

(** C1 (as amended). Every call of [animate], the one made at mount
    and the one of every later frame, places every body at
    [(orbitRadius * cos (t * orbitRate), 0, orbitRadius * sin (t * orbitRate))]
    where [t] is the reading of the wall clock (milliseconds since the Unix
    epoch) times 0.0005, and is not measured from the start of the loop.
    With the registry of the source, the third body is Earth (radius 40,
    rate 0.02/3) and a frame at clock reading 0 places it at
    [(40, 0, 0)]. *)
Theorem orbit_position_follows_clock (reg : Registry R)
    (iw ih dpr now0 : R) (e : Element) :
  registry_wf reg ->
  exists w0,
    mount reg iw ih dpr now0 (Some e) = Ok w0 /\
    (forall i p,
       planets w0 !! i = Some p ->
       exists o,
         scene w0 !! mesh p = Some o /\
         position o = spec_position (now0 * 0.0005) p) /\
    (forall evs now i p,
       planets (run evs w0) !! i = Some p ->
       exists o,
         scene (frame now (run evs w0)) !! mesh p = Some o /\
         position o = spec_position (now * 0.0005) p) /\
    (reg = solar_registry ->
     forall evs,
       planets (run evs w0) !! 2%nat = Some Earth /\
       exists o,
         scene (frame 0 (run evs w0)) !! mesh Earth = Some o /\
         position o = vec3 40 0 0).
Proof.
  intros Hwf. eexists. split; [by apply mount_eq|].
  split; [|split].
  - intros i p Hp.
    destruct (first_tick_body reg iw ih dpr now0 e i p Hp) as (o & Ho & Hpos & _).
    by exists o.
  - intros evs now i p Hp.
    destruct (frame_body_R reg _ now i p
                (Inv_run reg evs _ (Inv_mounted reg iw ih dpr now0 e)) Hp)
      as (o & o' & _ & Ho' & Hpos & _).
    by exists o'.
  - intros -> evs.
    pose proof (Inv_run solar_registry evs _
                  (Inv_mounted solar_registry iw ih dpr now0 e)) as HI.
    pose proof (solar_planets_Earth _ HI) as HE.
    split; [exact HE|].
    destruct (frame_body_R solar_registry _ 0 2 Earth HI HE)
      as (o & o' & _ & Ho' & Hpos & _).
    exists o'. split; [done|]. rewrite Hpos.
    apply spec_position_Earth_0. lra.
Qed.

(** *** The rates of the bodies *)

Lemma built_entry_rates (reg : Registry R) (ref i : nat) :
  rotationSpeed (built_entry reg ref i) = 0.01 * (INR i + 1) /\
  orbitSpeed (built_entry reg ref i) = 0.02 / (INR i + 1) /\
  0 < rotationSpeed (built_entry reg ref i) /\
  0 < orbitSpeed (built_entry reg ref i).
Proof.
  pose proof (pos_INR i) as Hi.
  cbn [rotationSpeed orbitSpeed built_entry].
  rewrite dec_1_2, dec_2_2. cbn [of_Z fadd fmul fdiv R_JsNumber].
  rewrite <- INR_IZR_INZ.
  repeat split; try done.
  - nra.
  - apply Rdiv_lt_0_compat; lra.
Qed.

(** *** The registry *)

Lemma sorted_lookup_lt (l : list R) :
  StronglySorted Rlt l ->
  forall i j a b, (i < j)%nat -> l !! i = Some a -> l !! j = Some b -> a < b.
Proof.
  induction 1 as [|x l Hs IH Hx]; intros i j a b Hij Ha Hb; [done|].
  destruct j as [|j]; [lia|]. simpl in Hb.
  destruct i as [|i]; simpl in Ha.
  - injection Ha as <-. rewrite Forall_forall in Hx. apply Hx.
    by eapply list_elem_of_lookup_2.
  - apply (IH i j); [lia|done|done].
Qed.

Lemma solar_distances_sorted :
  StronglySorted Rlt (planetDistances (F:=R) solar_registry).
Proof.
  simpl. repeat (constructor; [|repeat (constructor; try lra)]).
  constructor.
Qed.

Lemma Inv_body (reg : Registry R) (w : World R) (i : nat) (t : string) :
  Inv reg w -> planetTextures reg !! i = Some t ->
  exists o,
    scene w !! (3 + i)%nat = Some o /\
    texture_of o = Some t /\
    body_name o = planetNames reg !! i.
Proof.
  intros ((_ & _ & Hs & _) & _) Ht.
  pose proof (built_scene_lookup_body reg i t Ht) as Hb.
  destruct (Forall2_lookup_l _ _ _ _ _ Hs Hb) as (o & Ho & Hk & Hc).
  exists o. split; [done|].
  unfold texture_of, body_name. rewrite <- Hk, <- Hc. unfold ring_on.
  by destruct (decide _).
Qed.

(** C10. The registry of the source has eight textures, eight
    distances and eight names, and mount makes eight bodies from it, in
    the order of the arrays: body [i] has rotation rate [0.01 * (i + 1)]
    and orbit rate [0.02 / (i + 1)], both positive, the distance, the
    texture and the name at index [i]. Outwards the rotation rates and the
    distances (20, 30, 40, 50, 60, 70, 80, 100) increase strictly and the
    orbit rates decrease strictly. *)
Theorem solar_registry_rates (iw ih dpr now0 : R) (e : Element) :
  length (planetTextures (F:=R) solar_registry) = 8%nat /\
  length (planetDistances (F:=R) solar_registry) = 8%nat /\
  length (planetNames (F:=R) solar_registry) = 8%nat /\
  exists w0,
    mount solar_registry iw ih dpr now0 (Some e) = Ok w0 /\
    length (planets w0) = 8%nat /\
    distance <$> planets w0 = [20; 30; 40; 50; 60; 70; 80; 100] /\
    (forall i p,
       planets w0 !! i = Some p ->
       rotationSpeed p = 0.01 * (INR i + 1) /\
       orbitSpeed p = 0.02 / (INR i + 1) /\
       0 < rotationSpeed p /\
       0 < orbitSpeed p /\
       planetDistances solar_registry !! i = Some (distance p) /\
       exists o t name,
         scene w0 !! mesh p = Some o /\
         planetTextures (F:=R) solar_registry !! i = Some t /\
         texture_of o = Some t /\
         planetNames (F:=R) solar_registry !! i = Some name /\
         body_name o = Some name) /\
    (forall i j p q,
       (i < j)%nat ->
       planets w0 !! i = Some p -> planets w0 !! j = Some q ->
       rotationSpeed p < rotationSpeed q /\
       orbitSpeed q < orbitSpeed p /\
       distance p < distance q).
Proof.
  split; [done|]. split; [done|]. split; [done|].
  eexists. split; [apply mount_eq, solar_registry_wf|].
  pose proof (Inv_mounted solar_registry iw ih dpr now0 e) as HI.
  assert (forall i p,
            planets (mounted solar_registry iw ih dpr now0 e) !! i = Some p ->
            (i < 8)%nat /\ p = built_entry solar_registry (3 + i) i /\
            planetDistances solar_registry !! i = Some (distance p)) as Hentry.
  { intros i p Hp.
    destruct (Inv_planets_lookup _ _ i p HI Hp) as [Hi ->].
    split; [exact Hi|]. split; [done|].
    by apply distance_at_Some. }
  split; [done|]. split; [done|]. split.
  - intros i p Hp. destruct (Hentry i p Hp) as (Hi & -> & Hd).
    destruct (built_entry_rates solar_registry (3 + i) i) as (Hr & Ho & Hr0 & Ho0).
    repeat (split; [done|]).
    destruct (lookup_lt_is_Some_2 (planetTextures (F:=R) solar_registry) i Hi)
      as [t Ht].
    destruct (lookup_lt_is_Some_2 (planetNames (F:=R) solar_registry) i Hi)
      as [name Hname].
    destruct (Inv_body solar_registry _ i t HI Ht) as (o & Ho' & Htex & Hbn).
    exists o, t, name. cbn [mesh built_entry]. by rewrite Hbn.
  - intros i j p q Hij Hp Hq.
    destruct (Hentry i p Hp) as (Hi & Hpe & Hdp).
    destruct (Hentry j q Hq) as (Hj & Hqe & Hdq).
    destruct (built_entry_rates solar_registry (3 + i) i) as (Hri & Hoi & _ & _).
    destruct (built_entry_rates solar_registry (3 + j) j) as (Hrj & Hoj & _ & _).
    rewrite <- Hpe in Hri, Hoi. rewrite <- Hqe in Hrj, Hoj.
    pose proof (pos_INR i) as Hi0. pose proof (lt_INR i j Hij) as Hlt.
    split; [rewrite Hri, Hrj; nra|]. split.
    + rewrite Hoi, Hoj. unfold Rdiv.
      apply Rmult_lt_compat_l; [lra|].
      apply Rinv_lt_contravar; nra.
    + exact (sorted_lookup_lt _ solar_distances_sorted i j _ _ Hij Hdp Hdq).
Qed.

(** *** Facts used by the examples *)

Lemma cos_lt_1 (x : R) : 0 < x -> x <= PI -> cos x < 1.
Proof.
  intros H0 Hpi. rewrite <- cos_0.
  pose proof PI_RGT_0.
  apply cos_decreasing_1; lra.
Qed.

Lemma spec_position_Earth_moved (t : R) :
  0 < t -> t <= 450 -> spec_position t Earth <> spec_position 0 Earth.
Proof.
  intros H0 H1 Heq.
  rewrite (spec_position_Earth_0 0) in Heq by done.
  unfold spec_position, Earth in Heq. simpl in Heq.
  injection Heq as Hx _.
  pose proof PI2_3_2 as Hpi.
  pose proof (cos_lt_1 (t * (0.02 / 3))) as Hc.
  lapply Hc; [clear Hc; intros Hc|lra].
  lapply Hc; [clear Hc; intros Hc|lra].
  lra.
Qed.

(** [Math.floor] of a product of two integers. *)
Lemma floor_product (a b : Z) : ffloor (IZR a * IZR b) = IZR (a * b).
Proof.
  cbn [ffloor fmul R_JsNumber]. f_equal. symmetry. apply Int_part_spec.
  rewrite mult_IZR. lra.
Qed.

Lemma cleanup_mounted (reg : Registry R) (iw ih dpr now0 : R) (e : Element) :
  exists w1,
    cleanup (mounted reg iw ih dpr now0 e) = Ok w1 /\
    Inv reg w1 /\ canvas_gone w1 /\
    cleanup w1 = Throw NotFoundError.
Proof.
  destruct (canvas_once_mounted reg iw ih dpr now0 e) as [Honce Hin].
  destruct (container_mounted reg iw ih dpr now0 e) as [_ Hatt].
  destruct (cleanup_cases (mounted reg iw ih dpr now0 e))
    as [[Hd _]|[(_ & Hgone & _)|(_ & _ & w1 & Hok & Hw1)]];
    [congruence|done|].
  assert (canvas_gone w1) as Hgone by (by eapply cleanup_canvas_once).
  exists w1. split; [done|]. split.
  - eapply Inv_cleanup; [apply Inv_mounted|exact Hok].
  - split; [done|].
    destruct (cleanup_cases w1) as [[Hd _]|[(_ & _ & Ht)|(_ & Hin' & _)]];
      [|done|done].
    rewrite Hw1 in Hd. cbn [mountRef_attached with_container] in Hd.
    congruence.
Qed.

(** When React has detached the ref, the cleanup throws and the canvas
    stays. *)
Lemma cleanup_detached_mounted (reg : Registry R) (iw ih dpr now0 : R)
    (e : Element) (evs : list (Event R)) :
  cleanup (run (DetachRef :: evs) (mounted reg iw ih dpr now0 e))
  = Throw TypeError.
Proof.
  apply cleanup_detached.
  change (run (DetachRef :: evs) (mounted reg iw ih dpr now0 e))
    with (run evs (after DetachRef (mounted reg iw ih dpr now0 e))).
  by apply detached_run.
Qed.

Lemma inner_registry_wf : registry_wf (F:=R) inner_registry.
Proof. by split. Qed.

Lemma mount_solar_Earth (iw ih dpr now0 : R) (e : Element) (w0 : World R) :
  mount solar_registry iw ih dpr now0 (Some e) = Ok w0 ->
  planets w0 !! 2%nat = Some Earth.
Proof.
  rewrite mount_eq by apply solar_registry_wf. intros [= <-].
  apply solar_planets_Earth, Inv_mounted.
Qed.



End RealModel.

(** ** Examples *)

#[local] Existing Instance idle_controls.
#[local] Open Scope R_scope.

(** C1, counterexample. The component is mounted when the clock reads
    1000, so that the loop starts at 1000. At the first call of [animate],
    and at a frame at the same clock reading, the time elapsed since the
    start of the loop is 0, for which the claim gives Earth the position
    [(40, 0, 0)]; the code places it elsewhere, at the angle
    [1000 * 0.0005 * (0.02 / 3)]. *)
Lemma orbit_position_not_from_loop_start :
  exists w0 o o',
    mount solar_registry 800 600 1 1000 (Some empty_div) = Ok w0 /\
    planets w0 !! 2%nat = Some Earth /\
    spec_position 0 Earth = vec3 40 0 0 /\
    scene w0 !! mesh Earth = Some o /\
    position o <> spec_position 0 Earth /\
    scene (frame 1000 w0) !! mesh Earth = Some o' /\
    position o' <> spec_position (1000 - 1000) Earth.
Proof.
  pose proof (Inv_mounted solar_registry 800 600 1 1000 empty_div) as HI.
  pose proof (solar_planets_Earth _ HI) as HE.
  destruct (first_tick_body solar_registry 800 600 1 1000 empty_div 2 Earth HE)
    as (o & Ho & Hpos & _).
  destruct (frame_body_R solar_registry _ 1000 2 Earth HI HE)
    as (o0 & o' & _ & Ho' & Hpos' & _).
  eexists _, o, o'.
  split; [apply mount_eq, solar_registry_wf|].
  split; [exact HE|].
  split; [by apply spec_position_Earth_0|].
  split; [exact Ho|]. split.
  - rewrite Hpos. apply spec_position_Earth_moved; lra.
  - split; [exact Ho'|]. rewrite Hpos'.
    replace (1000 - 1000)%R with 0%R by lra.
    apply spec_position_Earth_moved; lra.
Qed.

(** C2, counterexample. The component is mounted when the clock reads
    0 and one frame runs when it reads 200000, so that [time] is 100 and
    100 has elapsed since the start of the loop. The claim gives Earth the
    angle [100 * 0.03 = 3]; the code has added 0.03 twice. *)
Lemma rotation_not_elapsed_times_rate :
  exists w0 o,
    mount solar_registry 800 600 1 0 (Some empty_div) = Ok w0 /\
    planets w0 !! 2%nat = Some Earth /\
    ((200000 - 0) * 0.0005 = 100)%R /\
    spec_rotation 100 Earth = 3%R /\
    scene (frame 200000 w0) !! mesh Earth = Some o /\
    vy (rotation o) = 0.06%R /\
    vy (rotation o) <> spec_rotation 100 Earth.
Proof.
  pose proof (Inv_mounted solar_registry 800 600 1 0 empty_div) as HI.
  pose proof (solar_planets_Earth _ HI) as HE.
  destruct (rotation_after_run solar_registry 800 600 1 0 empty_div
              [Frame 200000%R] 2 Earth HE) as (o & Ho & Hr).
  rewrite run_frame in Ho.
  assert (vy (rotation o) = 0.06%R) as Hv by (rewrite Hr; simpl; lra).
  assert (spec_rotation 100 Earth = 3%R) as Hs
    by (unfold spec_rotation; simpl; lra).
  eexists _, o.
  split; [apply mount_eq, solar_registry_wf|].
  split; [exact HE|]. split; [lra|]. split; [exact Hs|].
  split; [exact Ho|]. split; [exact Hv|].
  rewrite Hv, Hs. lra.
Qed.

(** C3, counterexample. The component is mounted and the cleanup
    runs and succeeds. A call of [animate] is still scheduled, and the
    next frame writes the transform of Earth: its rotation angle is not
    what it was, so the scene is not what it was. *)
Lemma frame_after_cleanup_writes :
  exists w0 w1 o o',
    mount solar_registry 800 600 1 0 (Some empty_div) = Ok w0 /\
    step Unmount w0 = Ok w1 /\
    rafQueue w1 = 1%nat /\
    scene w1 !! mesh Earth = Some o /\
    scene (frame 16 w1) !! mesh Earth = Some o' /\
    vy (rotation o') <> vy (rotation o) /\
    scene (frame 16 w1) <> scene w1.
Proof.
  destruct (cleanup_mounted solar_registry 800 600 1 0 empty_div)
    as (w1 & Hc & HI & _).
  pose proof (solar_planets_Earth _ HI) as HE.
  destruct (frame_body_R solar_registry w1 16 2 Earth HI HE)
    as (o & o' & Ho & Ho' & _ & Hr).
  assert (vy (rotation o') <> vy (rotation o)) as Hne
    by (rewrite Hr; simpl; lra).
  eexists _, w1, o, o'.
  split; [apply mount_eq, solar_registry_wf|].
  split; [exact Hc|]. split; [apply HI|].
  split; [exact Ho|]. split; [exact Ho'|]. split; [exact Hne|].
  intros Heq. rewrite Heq, Ho in Ho'. by injection Ho' as <-.
Qed.

(** C4, counterexample. For the registry of the source the claim
    counts 19 objects, and the scene graph holds 28: two lights, the sun,
    and a mesh, a label and an orbit line for each of the eight bodies,
    and the ring. Counting the children of the scene alone gives 19 here,
    but not in general: with the first five planets, none of them Saturn,
    the claim counts 12, the scene has 13 children and 18 objects. *)
Lemma object_count_differs :
  (exists w0,
     mount solar_registry 800 600 1 0 (Some empty_div) = Ok w0 /\
     spec_object_count (F:=R) solar_registry = 19%nat /\
     length (scene w0) = 19%nat /\
     length (objects (scene w0)) = 28%nat) /\
  (exists w0,
     mount inner_registry 800 600 1 0 (Some empty_div) = Ok w0 /\
     spec_object_count (F:=R) inner_registry = 12%nat /\
     length (scene w0) = 13%nat /\
     length (objects (scene w0)) = 18%nat).
Proof.
  split.
  - destruct (Inv_counts solar_registry _ solar_registry_wf
                (Inv_mounted solar_registry 800 600 1 0 empty_div))
      as (Hn & Ho & _).
    eexists. split; [apply mount_eq, solar_registry_wf|].
    split; [reflexivity|]. split; [exact Hn|exact Ho].
  - destruct (Inv_counts inner_registry _ inner_registry_wf
                (Inv_mounted inner_registry 800 600 1 0 empty_div))
      as (Hn & Ho & _).
    eexists. split; [apply mount_eq, inner_registry_wf|].
    split; [reflexivity|]. split; [exact Hn|exact Ho].
Qed.

(** C5, counterexample. The component is mounted and the cleanup is
    called twice: the first call succeeds, the second raises
    [NotFoundError]. When React has detached the ref before it runs the
    cleanup (React 17 and later), the first call already raises
    [TypeError], and so does the second. *)
Lemma second_cleanup_throws :
  exists w0 w1,
    mount solar_registry 800 600 1 0 (Some empty_div) = Ok w0 /\
    step Unmount w0 = Ok w1 /\
    step Unmount w1 = Throw NotFoundError /\
    step Unmount w1 <> Ok w1 /\
    step Unmount (run [DetachRef] w0) = Throw TypeError /\
    step Unmount (run [DetachRef; Unmount] w0) = Throw TypeError.
Proof.
  destruct (cleanup_mounted solar_registry 800 600 1 0 empty_div)
    as (w1 & Hc & _ & _ & Hthrow).
  eexists _, w1.
  split; [apply mount_eq, solar_registry_wf|].
  split; [exact Hc|]. split; [exact Hthrow|].
  split; [simpl; by rewrite Hthrow|].
  split; apply cleanup_detached_mounted.
Qed.

(** C9, counterexample. On a display with [devicePixelRatio = 2] the
    window is resized to [(800, 600)] and then to [(1920, 1080)]: the
    renderer has the size [(1920, 1080)], and the drawing buffer of its
    canvas is 3840 by 2160, not [(1920, 1080)]. *)
Lemma resize_buffer_scaled_by_pixel_ratio :
  exists w0 w',
    mount solar_registry 1024 768 2 0 (Some empty_div) = Ok w0 /\
    w' = after (Resize 1920 1080) (run [Resize 800 600] w0) /\
    width (renderer w') = 1920 /\
    height (renderer w') = 1080 /\
    canvas_width (renderer w') = 3840 /\
    canvas_height (renderer w') = 2160 /\
    canvas_width (renderer w') <> 1920 /\
    canvas_height (renderer w') <> 1080.
Proof.
  set (w0 := mounted solar_registry 1024 768 2 0 empty_div).
  set (w := run [Resize 800 600] w0).
  assert (Inv solar_registry w) as (_ & _ & Hl) by apply Inv_run, Inv_mounted.
  assert (pixelRatio (renderer w) = 2) as Hdpr.
  { subst w w0. by rewrite pixelRatio_run, pixelRatio_mounted. }
  destruct (resize_devices 1920 1080 w Hl) as [_ Hr].
  assert (canvas_width (renderer (resize 1920 1080 w)) = 3840) as Hcw.
  { rewrite Hr. cbn [canvas_width setSize]. rewrite Hdpr.
    apply floor_product. }
  assert (canvas_height (renderer (resize 1920 1080 w)) = 2160) as Hch.
  { rewrite Hr. cbn [canvas_height setSize]. rewrite Hdpr.
    apply floor_product. }
  exists w0, (resize 1920 1080 w).
  split; [apply mount_eq, solar_registry_wf|].
  split; [reflexivity|].
  split; [by rewrite Hr|]. split; [by rewrite Hr|].
  split; [exact Hcw|]. split; [exact Hch|].
  rewrite Hcw, Hch. split; lra.
Qed.

(** ** The theorems at the registry of the source *)

Lemma orbit_position_follows_clock_witness :
  registry_wf (F:=R) solar_registry /\
  exists w0,
    mount solar_registry 800 600 1 0 (Some empty_div) = Ok w0 /\
    planets w0 !! 2%nat = Some Earth /\
    exists o,
      scene (frame 0 w0) !! mesh Earth = Some o /\
      position o = vec3 40 0 0.
Proof.
  split; [exact (conj eq_refl eq_refl)|].
  destruct (orbit_position_follows_clock solar_registry 800 600 1 0 empty_div
              (conj eq_refl eq_refl)) as (w0 & Hm & _ & _ & HE).
  exists w0. split; [exact Hm|]. exact (HE eq_refl []).
Defined.

Lemma rotation_counts_frames_witness :
  registry_wf (F:=R) solar_registry /\
  exists w0 p,
    mount solar_registry 800 600 1 0 (Some empty_div) = Ok w0 /\
    planets w0 !! 2%nat = Some p /\
    rotationSpeed p = fmul (dec 1 2) (fadd (of_Z 2) (of_Z 1)) /\
    (exists o,
       scene (frame 200000 w0) !! mesh p = Some o /\
       vy (rotation o) = 0 + rotationSpeed p + rotationSpeed p) /\
    (exists o,
       scene (run [Frame 16; Resize 800 600; Frame 33] w0) !! mesh p
       = Some o /\
       vy (rotation o) = add_times 3 (rotationSpeed p) 0) /\
    (forall evs evs' o o',
       scene (run evs w0) !! mesh p = Some o ->
       scene (run (evs ++ evs') w0) !! mesh p = Some o' ->
       vy (rotation o) <= vy (rotation o')).
Proof.
  split; [exact (conj eq_refl eq_refl)|].
  destruct (rotation_counts_frames solar_registry 800 600 1 0 empty_div
              (conj eq_refl eq_refl)) as (w0 & Hm & Hsum & _ & Hmono & HE).
  destruct (HE eq_refl) as (p & Hp & Hr & Hf).
  exists w0, p. split; [exact Hm|]. split; [exact Hp|].
  split; [exact Hr|]. split; [exact (Hf 200000)|].
  split; [exact (Hsum [Frame 16; Resize 800 600; Frame 33] 2%nat p Hp)|].
  apply (Hmono Rle 2%nat p Hp Rle_refl Rle_trans).
  intros n. rewrite Hr. unfold dec.
  cbn [of_Z fadd fmul fdiv R_JsNumber].
  change (10 ^ Z.of_nat 2)%Z with 100%Z. lra.
Defined.

Lemma frames_go_on_after_cleanup_witness :
  registry_wf (F:=R) solar_registry /\
  exists w0,
    mount solar_registry 800 600 1 0 (Some empty_div) = Ok w0 /\
    rafQueue (run [Unmount] w0) = 1%nat /\
    rafQueue (frame 16 (run [Unmount] w0)) = 1%nat.
Proof.
  split; [exact (conj eq_refl eq_refl)|].
  destruct (frames_go_on_after_cleanup solar_registry 800 600 1 0 empty_div
              (conj eq_refl eq_refl)) as (w0 & Hm & Hloop).
  exists w0. split; [exact Hm|].
  destruct (Hloop [] []) as [Hq Hf].
  split; [exact Hq|]. exact (proj1 (Hf 16)).
Defined.

Lemma scene_object_count_witness :
  registry_wf (F:=R) solar_registry /\
  exists w0,
    mount solar_registry 800 600 1 0 (Some empty_div) = Ok w0 /\
    length (scene w0) = 19%nat /\
    length (objects (scene w0)) = 28%nat.
Proof.
  split; [exact (conj eq_refl eq_refl)|].
  destruct (scene_object_count solar_registry 800 600 1 0 empty_div
              (conj eq_refl eq_refl)) as (w0 & Hm & Hc).
  exists w0. split; [exact Hm|]. exact (Hc []).
Defined.

Lemma cleanup_twice_throws_witness :
  registry_wf (F:=R) solar_registry /\
  exists w0 w1,
    mount solar_registry 800 600 1 0 (Some empty_div) = Ok w0 /\
    step Unmount w0 = Ok w1 /\
    step Unmount (run [Frame 16; Resize 1920 1080] w1) = Throw NotFoundError /\
    step Unmount (run [DetachRef] w0) = Throw TypeError /\
    CanvasElement ∈ childNodes (container (run [DetachRef] w0)).
Proof.
  split; [exact (conj eq_refl eq_refl)|].
  destruct (cleanup_twice_throws solar_registry 800 600 1 0 empty_div
              (conj eq_refl eq_refl))
    as (w0 & Hm & Hfirst & Hdet & Hstay & _ & Hafter).
  destruct (Hfirst [] (not_elem_of_nil _) (not_elem_of_nil _))
    as (w1 & H1 & _).
  exists w0, w1. split; [exact Hm|]. split; [exact H1|].
  split; [|exact (conj (Hdet [] []) (Hstay [] [] (not_elem_of_nil _)))].
  apply (Hafter [] w1 H1 [Frame 16; Resize 1920 1080]).
  intros Hin. inversion Hin as [|? ? ? Hin1]; subst.
  inversion Hin1 as [|? ? ? Hin2]; subst. inversion Hin2.
Defined.


Lemma saturn_ring_witness :
  registry_wf (F:=R) solar_registry /\
  exists w0,
    mount solar_registry 800 600 1 0 (Some empty_div) = Ok w0 /\
    length (filter (fun o => is_ring o = true) (objects (scene w0))) = 1%nat /\
    exists (k : nat) (o : Object3D R),
      planetNames (F:=R) solar_registry !! k = Some "Saturn"%string /\
      scene w0 !! (3 + k)%nat = Some o /\
      body_name o = Some "Saturn"%string /\
      length (rings_of o) = 1%nat.
Proof.
  split; [exact (conj eq_refl eq_refl)|].
  destruct (saturn_ring solar_registry 800 600 1 0 empty_div
              (conj eq_refl eq_refl)) as (w0 & Hm & Hring).
  exists w0. split; [exact Hm|].
  apply (proj1 (Hring [])).
  exact (list_elem_of_lookup_2 (planetNames (F:=R) solar_registry) 5
           "Saturn"%string eq_refl).
Defined.

Lemma resize_updates_aspect_and_size_witness :
  registry_wf (F:=R) solar_registry /\
  exists w0,
    mount solar_registry 1024 768 2 0 (Some empty_div) = Ok w0 /\
    aspect (camera (after (Resize 800 600) w0)) = 800 / 600 /\
    aspect (camera (after (Resize 1920 1080) (run [Resize 800 600] w0)))
    = 1920 / 1080 /\
    width (renderer (after (Resize 1920 1080) (run [Resize 800 600] w0)))
    = 1920 /\
    height (renderer (after (Resize 1920 1080) (run [Resize 800 600] w0)))
    = 1080 /\
    canvas_width
      (renderer (after (Resize 1920 1080) (run [Resize 800 600] w0)))
    = ffloor (1920 * 2) /\
    canvas_height
      (renderer (after (Resize 1920 1080) (run [Resize 800 600] w0)))
    = ffloor (1080 * 2) /\
    camera_position
      (camera (run [Resize 800 600; Resize 1920 1080] w0))
    = camera_position (camera w0).
Proof.
  split; [exact (conj eq_refl eq_refl)|].
  destruct (resize_updates_aspect_and_size solar_registry 1024 768 2 0
              empty_div (conj eq_refl eq_refl)) as (w0 & Hm & Hres).
  exists w0. split; [exact Hm|].
  destruct (Hres []) as [H0 Hseq].
  destruct (Hres [Resize 800 600]) as [H1 _].
  destruct (H0 800 600) as (Ha0 & _).
  destruct (H1 1920 1080) as (Ha1 & _ & Hw1 & Hh1 & _ & Hcw & Hch & _).
  split; [exact Ha0|]. split; [exact Ha1|]. split; [exact Hw1|].
  split; [exact Hh1|]. split; [exact Hcw|]. split; [exact Hch|].
  exact (Hseq [(800, 600); (1920, 1080)]).
Defined.

#[local] Remove Hints idle_controls : typeclass_instances.
#[local] Close Scope R_scope.

(** ** Further properties of the scene build *)

Section OrbitLines.
Context {F : Type} `{JsNumber F}.

Lemma points_bind_app (f : nat -> Vec3 F) (l : list nat) (rest : list F) :
  points ((l ≫= fun i => [vx (f i); vy (f i); vz (f i)]) ++ rest) =
  (f <$> l) ++ points rest.
Proof.
  induction l as [|i l IH]; [done|].
  rewrite bind_cons, fmap_cons. cbn [app points]. rewrite IH.
  by destruct (f i).
Qed.

(** The position buffer of an orbit line, as the [Float32Array] holds
    it: the 64 points of the loop and the first point once more. *)
Lemma createOrbit_kind (radius : F) :
  kind (createOrbit radius) =
  LineLoop
    (BufferGeometry
       ((seq 0 64 ≫= fun i =>
           [vx (orbit_point radius i); vy (orbit_point radius i);
            vz (orbit_point radius i)])
        ++ [vx (orbit_point radius 0); vy (orbit_point radius 0);
            vz (orbit_point radius 0)]))
    (LineBasicMaterial 16777215 (dec 7 1) true (of_Z 2)).
Proof. reflexivity. Qed.

Lemma createOrbit_points (radius : F) :
  line_points (createOrbit radius) =
  (orbit_point radius <$> seq 0 64) ++ [orbit_point radius 0].
Proof.
  unfold line_points. rewrite createOrbit_kind.
  rewrite points_bind_app. cbn [points]. by destruct (orbit_point radius 0).
Qed.

(** [createOrbit] makes a closed loop of 65 points: for [k < 64], point
    [k] holds the single-precision values of [cos(k * angleStep) * radius],
    [0] and [sin(k * angleStep) * radius], with
    [angleStep = (Math.PI * 2) / 64], and the last point is the first one
    once more, number for number. Every point has the same [y]. The line
    is at the origin, turned by [Math.PI / 2] about the x axis, and has no
    children. *)
Theorem createOrbit_closed_loop (radius : F) :
  let pts := line_points (createOrbit radius) in
  length pts = 65 /\
  (forall k : nat,
     k < 64 ->
     pts !! k =
     Some (vec3
             (fround (fmul (fcos (fmul (of_Z (Z.of_nat k))
                                    (fdiv (fmul fPI (of_Z 2)) (of_Z 64))))
                           radius))
             (fround (of_Z 0))
             (fround (fmul (fsin (fmul (of_Z (Z.of_nat k))
                                    (fdiv (fmul fPI (of_Z 2)) (of_Z 64))))
                           radius)))) /\
  pts !! 64 = pts !! 0 /\
  (forall (k : nat) (p : Vec3 F), pts !! k = Some p -> vy p = fround (of_Z 0)) /\
  position (createOrbit radius) = vec3 (of_Z 0) (of_Z 0) (of_Z 0) /\
  rotation (createOrbit radius) = vec3 (fdiv fPI (of_Z 2)) (of_Z 0) (of_Z 0) /\
  children (createOrbit radius) = [].
Proof.
  intros pts. subst pts. rewrite createOrbit_points.
  assert (forall k : nat,
            k < 64 ->
            ((orbit_point radius <$> seq 0 64) ++ [orbit_point radius 0]) !! k
            = Some (orbit_point radius k)) as Hk.
  { intros k Hlt.
    rewrite lookup_app_l by (rewrite length_fmap, length_seq; lia).
    rewrite list_lookup_fmap, lookup_seq_lt by lia. done. }
  split; [by rewrite length_app, length_fmap, length_seq|].
  split; [intros k Hlt; by rewrite Hk by done|].
  split.
  { rewrite (Hk 0) by lia.
    rewrite lookup_app_r by (rewrite length_fmap, length_seq; lia).
    by rewrite length_fmap, length_seq. }
  split; [|done].
  intros k p Hp.
  destruct (decide (k < 64)) as [Hlt|Hge].
  - rewrite Hk in Hp by done. by injection Hp as <-.
  - rewrite lookup_app_r in Hp by (rewrite length_fmap, length_seq; lia).
    rewrite length_fmap, length_seq in Hp.
    destruct (k - 64); [|done]. by injection Hp as <-.
Qed.

End OrbitLines.

(** ** Further properties of the mounted component *)

Section MountedMore.
Context {F : Type} `{JsNumber F} `{!OrbitControlsLib F}.

(** *** Which registries the effect builds from *)

Lemma built_planets_lookup_ge (reg : Registry F) (k : nat) :
  numberOfBodies reg <= k -> built_planets reg !! k = None.
Proof.
  intros Hk. apply lookup_ge_None. by rewrite length_built_planets.
Qed.

Lemma add_saturn_ring_any (reg : Registry F) (sc0 : list (Object3D F)) :
  length sc0 = 3 ->
  add_saturn_ring reg
    (sc0 ++ imap (built_body reg) (planetTextures reg), built_planets reg) =
  if decide (Z.of_nat (numberOfBodies reg)
             <= indexOf "Saturn" (planetNames reg))%Z
  then Throw TypeError
  else Ok (sc0 ++ imap (fun i t => ring_on reg i (built_body reg i t))
                  (planetTextures reg)).
Proof.
  intros Hsc. unfold add_saturn_ring.
  destruct (indexOf_spec "Saturn" (planetNames reg))
    as [[Hnot Heq]|(k & Heq & Hk & _)]; rewrite Heq.
  - rewrite decide_False by (intros ?; congruence).
    rewrite decide_False by lia.
    do 2 f_equal. apply imap_ext. intros i t _. unfold ring_on.
    rewrite Heq. by rewrite decide_False by lia.
  - rewrite decide_True by lia. rewrite Nat2Z.id.
    destruct (decide (Z.of_nat (numberOfBodies reg) <= Z.of_nat k)%Z)
      as [Hge|Hlt].
    + by rewrite built_planets_lookup_ge by lia.
    + rewrite built_planets_lookup by lia.
      cbn [built_entry mesh].
      rewrite (alter_app_at _ 3 k) by done. rewrite alter_imap.
      do 2 f_equal. apply imap_ext. intros i t _. unfold ring_on.
      rewrite Heq. destruct (decide (k = i)) as [->|Hne].
      * by rewrite decide_True.
      * by rewrite decide_False by lia.
Qed.

Lemma mount_any (reg : Registry F) (iw ih dpr now : F) (e : Element) :
  numberOfBodies reg <= length (planetDistances reg) ->
  mount reg iw ih dpr now (Some e) =
  if decide (Z.of_nat (numberOfBodies reg)
             <= indexOf "Saturn" (planetNames reg))%Z
  then Throw TypeError
  else Ok (mounted reg iw ih dpr now e).
Proof.
  intros Hd. unfold mount, forEach.
  rewrite forEach_add_planet by (unfold numberOfBodies in Hd; simpl; lia).
  cbn [mbind Result_bind mret Result_ret].
  match goal with
  | |- context [add_saturn_ring reg ?st] =>
      change st
        with (base_scene ++ imap (built_body reg) (planetTextures reg),
              built_planets reg)
  end.
  rewrite add_saturn_ring_any by done.
  destruct (decide _); [done|].
  cbn [mbind Result_bind mret Result_ret].
  rewrite foldl_createOrbit.
  reflexivity.
Qed.

Lemma mount_builds (reg : Registry F) (iw ih dpr now : F) (e : Element) :
  registry_builds reg ->
  mount reg iw ih dpr now (Some e) = Ok (mounted reg iw ih dpr now e).
Proof.
  intros [Hd Hs]. rewrite mount_any by done. by rewrite decide_False by lia.
Qed.

Lemma registry_wf_builds (reg : Registry F) :
  registry_wf reg -> registry_builds reg.
Proof.
  intros [Hd Hn]. split; [unfold numberOfBodies; lia|].
  destruct (indexOf_spec "Saturn" (planetNames reg))
    as [[_ ->]|(k & -> & Hk & _)]; [lia|].
  apply lookup_lt_Some in Hk. unfold numberOfBodies. lia.
Qed.

(** The effect throws exactly when the ring has no body to go to: when
    every texture has a distance, mount throws [TypeError] if the first
    name Saturn is at an index beyond the bodies, and builds the
    component otherwise, also when the array of names is shorter or longer
    than the array of textures. *)
Theorem mount_throws_on_saturn_without_body (reg : Registry F)
    (iw ih dpr now : F) (e : Element) :
  numberOfBodies reg <= length (planetDistances reg) ->
  mount reg iw ih dpr now None = Throw TypeError /\
  ((Z.of_nat (numberOfBodies reg) <= indexOf "Saturn" (planetNames reg))%Z ->
   mount reg iw ih dpr now (Some e) = Throw TypeError) /\
  ((indexOf "Saturn" (planetNames reg) < Z.of_nat (numberOfBodies reg))%Z ->
   exists w0,
     mount reg iw ih dpr now (Some e) = Ok w0 /\
     length (planets w0) = numberOfBodies reg /\
     length (scene w0) =
       3 + numberOfBodies reg + length (planetDistances reg)).
Proof.
  intros Hd. split; [done|].
  rewrite mount_any by done. split; intros Hs.
  - by rewrite decide_True.
  - rewrite decide_False by lia. eexists. split; [done|].
    pose proof (Inv_mounted reg iw ih dpr now e) as HI.
    split.
    + destruct HI as ((-> & _) & _). apply length_built_planets.
    + rewrite (Inv_length_scene reg _ HI). apply length_built_scene.
Qed.

(** *** What the frames leave alone *)

Lemma after_static_lookup (reg : Registry F) (ev : Event F) (w : World F)
    (j : nat) :
  Inv reg w -> j <> 2 -> ~ (3 <= j < 3 + numberOfBodies reg) ->
  scene (after ev w) !! j = scene w !! j.
Proof.
  intros ((Hpl & Hsun & _) & Hq & _) Hj2 Hj. unfold after.
  destruct ev as [now|iw ih| |]; simpl.
  - rewrite frame_eq by done.
    by rewrite (animate_lookup_other reg) by done.
  - f_equal. apply resize_other.
  - destruct (cleanup w) as [w'|] eqn:Hc; [|done].
    f_equal. by apply cleanup_other.
  - done.
Qed.

Lemma run_static_lookup (reg : Registry F) (evs : list (Event F)) (j : nat) :
  j <> 2 -> ~ (3 <= j < 3 + numberOfBodies reg) ->
  forall w : World F, Inv reg w -> scene (run evs w) !! j = scene w !! j.
Proof.
  intros Hj2 Hj. induction evs as [|ev evs IH]; intros w HI; [done|].
  change (run (ev :: evs) w) with (run evs (after ev w)).
  rewrite IH by by apply Inv_after.
  by apply (after_static_lookup reg).
Qed.

Lemma mounted_static_lookup (reg : Registry F) (iw ih dpr now : F)
    (e : Element) (j : nat) :
  j <> 2 -> ~ (3 <= j < 3 + numberOfBodies reg) ->
  scene (mounted reg iw ih dpr now e) !! j = built_scene reg !! j.
Proof.
  intros Hj2 Hj.
  change (scene (mounted reg iw ih dpr now e))
    with (scene (animate now (built_world reg iw ih dpr e))).
  by rewrite (animate_lookup_other reg) by done.
Qed.

Lemma built_scene_lookup_orbit (reg : Registry F) (i : nat) :
  built_scene reg !! (3 + numberOfBodies reg + i) =
  createOrbit <$> planetDistances reg !! i.
Proof.
  unfold built_scene, numberOfBodies.
  rewrite lookup_app_r by (simpl; lia).
  rewrite lookup_app_r by (rewrite length_imap; simpl; lia).
  rewrite length_imap, list_lookup_fmap. do 2 f_equal.
  change (length (base_scene (F:=F))) with 3. lia.
Qed.

(** The lights and the orbit lines are built once and never written:
    in every state of a mounted component the first two children of the
    scene are the two lights as they were created, and the child after
    the last body's mesh plus [i] is the orbit line made from
    [planetDistances[i]]. *)
Theorem lights_and_orbits_never_change (reg : Registry F)
    (iw ih dpr now : F) (e : Element) :
  registry_builds reg ->
  exists w0,
    mount reg iw ih dpr now (Some e) = Ok w0 /\
    forall evs,
      scene (run evs w0) !! 0 =
        Some (new_object (AmbientLight 4210752 (of_Z 1))) /\
      scene (run evs w0) !! 1 =
        Some (set_position
                (normalize (vec3 (of_Z 10) (of_Z 10) (of_Z 10)))
                (new_object (DirectionalLight 16777215 (of_Z 1)))) /\
      forall i,
        scene (run evs w0) !! (3 + numberOfBodies reg + i) =
        createOrbit <$> planetDistances reg !! i.
Proof.
  intros Hb. eexists. split; [by apply mount_builds|].
  intros evs.
  pose proof (Inv_mounted reg iw ih dpr now e) as HI.
  split; [|split].
  - rewrite (run_static_lookup reg) by (done || lia).
    by rewrite mounted_static_lookup by lia.
  - rewrite (run_static_lookup reg) by (done || lia).
    by rewrite mounted_static_lookup by lia.
  - intros i.
    rewrite (run_static_lookup reg) by (done || lia).
    rewrite mounted_static_lookup by lia.
    apply built_scene_lookup_orbit.
Qed.

(** The mesh of a body keeps what [add_planet] and [add_saturn_ring]
    gave it: in every state it is a sphere of radius 2 with the texture of
    its index, its first child is the label, at [(0, 3, 0)] relative to
    the mesh, with the name of its index (with no text when the names end
    before that index), and the ring follows on the body at the first
    index named Saturn, and on no other. *)
Theorem body_keeps_label_and_ring (reg : Registry F)
    (iw ih dpr now : F) (e : Element) :
  registry_builds reg ->
  exists w0,
    mount reg iw ih dpr now (Some e) = Ok w0 /\
    forall evs i t,
      planetTextures reg !! i = Some t ->
      exists o label,
        scene (run evs w0) !! (3 + i) = Some o /\
        kind o =
          Mesh (SphereGeometry (of_Z 2) 32 32) (MeshStandardMaterial t) /\
        children o =
          label ::
          (if decide (indexOf "Saturn" (planetNames reg) = Z.of_nat i)
           then [createSaturnRings (of_Z 2)] else []) /\
        kind label = SpriteText (planetNames reg !! i) (dec 15 1) "white" /\
        position label = vec3 (of_Z 0) (of_Z 3) (of_Z 0) /\
        children label = [].
Proof.
  intros Hb. eexists. split; [by apply mount_builds|].
  intros evs i t Ht.
  pose proof (Inv_run reg evs _ (Inv_mounted reg iw ih dpr now e)) as HI.
  destruct HI as ((_ & _ & Hs & _) & _).
  pose proof (built_scene_lookup_body reg i t Ht) as Hbody.
  destruct (Forall2_lookup_l _ _ _ _ _ Hs Hbody) as (o & Ho & Hk & Hc).
  exists o. eexists. split; [exact Ho|].
  rewrite <- Hk, <- Hc. unfold ring_on.
  destruct (decide _); by repeat split.
Qed.

(** The [planets] array is filled at mount and never changes: in every
    state it has one entry for each texture, entry [i] holds the distance
    [planetDistances[i]] and refers to child [3 + i] of the scene, and
    no two entries refer to the same mesh. *)
Theorem planets_never_change (reg : Registry F)
    (iw ih dpr now : F) (e : Element) :
  registry_builds reg ->
  exists w0,
    mount reg iw ih dpr now (Some e) = Ok w0 /\
    forall evs,
      planets (run evs w0) = planets w0 /\
      sun (run evs w0) = 2 /\
      length (planets w0) = numberOfBodies reg /\
      NoDup (mesh <$> planets w0) /\
      forall i p,
        planets w0 !! i = Some p ->
        mesh p = 3 + i /\
        planetDistances reg !! i = Some (distance p) /\
        is_Some (scene (run evs w0) !! mesh p).
Proof.
  intros [Hd Hs]. eexists. split; [by apply mount_builds|].
  intros evs.
  pose proof (Inv_mounted reg iw ih dpr now e) as HI0.
  pose proof (Inv_run reg evs _ HI0) as HI.
  assert (planets (mounted reg iw ih dpr now e) = built_planets reg) as Hpl
    by apply HI0.
  assert (planets (run evs (mounted reg iw ih dpr now e)) = built_planets reg)
    as Hpl' by apply HI.
  rewrite Hpl', Hpl.
  split; [done|]. split; [apply HI|].
  split; [apply length_built_planets|].
  split; [apply NoDup_mesh_built_planets|].
  intros i p Hp.
  assert (i < numberOfBodies reg) as Hi.
  { apply lookup_lt_Some in Hp. by rewrite length_built_planets in Hp. }
  rewrite built_planets_lookup in Hp by done. injection Hp as <-.
  cbn [mesh distance built_entry].
  split; [done|]. split; [apply distance_at_Some; lia|].
  apply lookup_lt_is_Some_2.
  rewrite (Inv_length_scene reg _ HI), length_built_scene. lia.
Qed.

(** Every call of [animate] submits one frame, before and after the
    cleanup: the number of frames rendered is one more than the number of
    frames the host has run. *)
Theorem one_render_per_frame (reg : Registry F)
    (iw ih dpr now : F) (e : Element) :
  registry_builds reg ->
  exists w0,
    mount reg iw ih dpr now (Some e) = Ok w0 /\
    forall evs, frames (renderer (run evs w0)) = 1 + count_frames evs.
Proof.
  intros Hb. eexists. split; [by apply mount_builds|].
  intros evs.
  assert (forall (w : World F) (k : nat),
            Inv reg w -> frames (renderer w) = k ->
            frames (renderer (run evs w)) = k + count_frames evs) as Hrun.
  { induction evs as [|ev evs IH]; intros w k HI Hk; [simpl; lia|].
    change (run (ev :: evs) w) with (run evs (after ev w)).
    pose proof (Inv_after reg ev w HI) as HI'.
    destruct HI as (_ & Hq & Hl). unfold after in *.
    destruct ev as [now'|iw' ih'| |]; simpl in *.
    - rewrite (IH _ (S k)); [lia|done|].
      rewrite frame_eq by done. simpl. by rewrite Hk.
    - apply IH; [done|]. by rewrite resize_eq by done.
    - destruct (cleanup w) as [w'|] eqn:Hc; [|by apply IH].
      apply IH; [done|].
      destruct (cleanup_other w w' Hc) as (_ & _ & _ & _ & ->). done.
    - by apply IH. }
  by apply (Hrun _ 1 (Inv_mounted reg iw ih dpr now e)).
Qed.

(** *** Resizing and unmounting *)

(** Of two resizes the last one wins, so that resizing twice to one size
    is resizing once; a resize leaves the scene, the entries of the bodies
    and the scheduled frame alone. *)
Theorem resize_last_wins (reg : Registry F) (iw ih dpr now : F)
    (e : Element) :
  registry_builds reg ->
  exists w0,
    mount reg iw ih dpr now (Some e) = Ok w0 /\
    forall evs a b c d,
      let w := run evs w0 in
      after (Resize c d) (after (Resize a b) w) = after (Resize c d) w /\
      after (Resize a b) (after (Resize a b) w) = after (Resize a b) w /\
      scene (after (Resize a b) w) = scene w /\
      planets (after (Resize a b) w) = planets w /\
      rafQueue (after (Resize a b) w) = rafQueue w.
Proof.
  intros Hb. eexists. split; [by apply mount_builds|].
  intros evs a b c d w.
  assert (Inv reg w) as HI by apply Inv_run, Inv_mounted.
  assert (forall a b (w : World F),
            resizeListeners w = 1 ->
            after (Resize a b) w = on_resize (with_window a b w)) as Heq.
  { intros a' b' w' Hl. unfold after. simpl. by apply resize_eq. }
  assert (forall a b, resizeListeners (after (Resize a b) w) = 1) as Hl.
  { intros a' b'. by apply (Inv_after reg (Resize a' b') w). }
  destruct HI as (_ & _ & Hl0).
  split; [|split].
  - rewrite (Heq c d _ (Hl a b)), !(Heq _ _ w Hl0). reflexivity.
  - rewrite (Heq a b _ (Hl a b)), !(Heq _ _ w Hl0). reflexivity.
  - rewrite !(Heq _ _ w Hl0). done.
Qed.

Lemma filter_other_nodes (c : DomNode) (l : list DomNode) :
  c ∉ l -> filter (fun n => n <> c) l = l.
Proof.
  induction l as [|n l IH]; [done|]. intros Hnot.
  apply not_elem_of_cons in Hnot as [Hne Hnot].
  rewrite filter_cons_True by done. by rewrite IH.
Qed.

(** Mounting and then unmounting gives the container its children
    back when the ref is still attached at the time the cleanup runs (as
    under React 16, which detaches refs after the cleanups): the cleanup
    succeeds, and the container holds the nodes it held before mount, in
    their order (the canvas apart). The cleanup undoes nothing else: the
    background style set at mount stays, and the scene, the camera, the
    renderer, the scheduled frame and the resize listener are as they
    were. When the ref has been detached before the cleanup runs (as under
    React 17 and later), the cleanup throws [TypeError] and undoes
    nothing: the container keeps the canvas, after the other nodes it held
    before mount. *)
Theorem cleanup_restores_children (reg : Registry F) (iw ih dpr now : F)
    (e : Element) :
  registry_builds reg ->
  exists w0,
    mount reg iw ih dpr now (Some e) = Ok w0 /\
    childNodes (container w0) =
      filter (fun n => n <> CanvasElement) (childNodes e) ++ [CanvasElement] /\
    (exists w1,
       step Unmount w0 = Ok w1 /\
       childNodes (container w1) =
         filter (fun n => n <> CanvasElement) (childNodes e) /\
       (CanvasElement ∉ childNodes e ->
        childNodes (container w1) = childNodes e) /\
       style_background (container w1) =
         Some "url('/assets/textures/stars.jpg') no-repeat center center fixed" /\
       style_backgroundSize (container w1) = Some "cover" /\
       scene w1 = scene w0 /\ camera w1 = camera w0 /\
       renderer w1 = renderer w0 /\ planets w1 = planets w0 /\
       rafQueue w1 = 1 /\ resizeListeners w1 = 1) /\
    step Unmount (run [DetachRef] w0) = Throw TypeError /\
    container (run [DetachRef; Unmount] w0) = container w0.
Proof.
  intros Hb.
  assert (CanvasElement ∉ filter (fun n => n <> CanvasElement) (childNodes e))
    as Hnot.
  { intros Hin. apply list_elem_of_filter in Hin as [Hne _]. done. }
  pose (c1 := {| childNodes :=
                   filter (fun n => n <> CanvasElement) (childNodes e);
                 style_background :=
                   Some "url('/assets/textures/stars.jpg') no-repeat center center fixed"%string;
                 style_backgroundSize := Some "cover"%string |}).
  assert (cleanup (mounted reg iw ih dpr now e) =
          Ok (with_container c1 (mounted reg iw ih dpr now e))) as Hc.
  { unfold cleanup.
    destruct (container_mounted reg iw ih dpr now e) as [-> ->].
    unfold removeChild.
    rewrite decide_True
      by (cbn [childNodes set_style appendChild];
          apply elem_of_app; right; by left).
    cbn [mbind Result_bind mret Result_ret childNodes set_style appendChild
         style_background style_backgroundSize].
    by rewrite remove_first_snoc by done. }
  pose proof (Inv_cleanup reg _ _ (Inv_mounted reg iw ih dpr now e) Hc)
    as (_ & Hq & Hl).
  destruct (cleanup_other _ _ Hc) as (Hsc & Hpl & _ & Hcam & Hren).
  assert (cleanup (run [DetachRef] (mounted reg iw ih dpr now e))
          = Throw TypeError) as Hd by (by apply cleanup_detached).
  exists (mounted reg iw ih dpr now e).
  split; [by apply mount_builds|].
  split; [by rewrite (proj1 (container_mounted reg iw ih dpr now e))|].
  split.
  { exists (with_container c1 (mounted reg iw ih dpr now e)).
    split; [exact Hc|]. split; [reflexivity|].
    split; [apply filter_other_nodes|].
    split; [reflexivity|]. split; [reflexivity|].
    split; [exact Hsc|]. split; [exact Hcam|]. split; [exact Hren|].
    split; [exact Hpl|]. split; [exact Hq|exact Hl]. }
  split; [exact Hd|].
  change (run [DetachRef; Unmount] (mounted reg iw ih dpr now e))
    with (after Unmount (run [DetachRef] (mounted reg iw ih dpr now e))).
  unfold after. cbn [step]. by rewrite Hd.
Qed.

(** *** The settings of the renderer and of the controls *)

Lemma settings_frame (now : F) (w : World F) :
  controls (frame now w) = controls w /\
  antialias (renderer (frame now w)) = antialias (renderer w) /\
  toneMapping (renderer (frame now w)) = toneMapping (renderer w) /\
  toneMappingExposure (renderer (frame now w))
  = toneMappingExposure (renderer w) /\
  width (renderer (frame now w)) = width (renderer w) /\
  height (renderer (frame now w)) = height (renderer w) /\
  canvas_width (renderer (frame now w)) = canvas_width (renderer w) /\
  canvas_height (renderer (frame now w)) = canvas_height (renderer w).
Proof.
  unfold frame. generalize (rafQueue w). intros n.
  induction n as [|n IH]; [done|]. simpl. exact IH.
Qed.

Lemma settings_resize (iw ih : F) (w : World F) :
  controls (resize iw ih w) = controls w /\
  antialias (renderer (resize iw ih w)) = antialias (renderer w) /\
  toneMapping (renderer (resize iw ih w)) = toneMapping (renderer w) /\
  toneMappingExposure (renderer (resize iw ih w))
  = toneMappingExposure (renderer w).
Proof.
  unfold resize. generalize (resizeListeners w). intros n.
  induction n as [|n IH]; [done|]. simpl. exact IH.
Qed.

Lemma settings_cleanup (w w' : World F) :
  cleanup w = Ok w' -> controls w' = controls w /\ renderer w' = renderer w.
Proof.
  unfold cleanup. destruct (mountRef_attached w); [|done].
  destruct (removeChild CanvasElement (container w)) as [c'|]; [|done].
  simpl. by intros [= <-].
Qed.

Lemma settings_run (evs : list (Event F)) :
  forall w : World F,
    controls (run evs w) = controls w /\
    antialias (renderer (run evs w)) = antialias (renderer w) /\
    toneMapping (renderer (run evs w)) = toneMapping (renderer w) /\
    toneMappingExposure (renderer (run evs w))
    = toneMappingExposure (renderer w).
Proof.
  induction evs as [|ev evs IH]; intros w; [done|].
  change (run (ev :: evs) w) with (run evs (after ev w)).
  destruct (IH (after ev w)) as (-> & -> & -> & ->).
  unfold after. destruct ev as [now|iw ih| |]; simpl.
  - destruct (settings_frame now w) as (-> & -> & -> & -> & _). done.
  - apply settings_resize.
  - destruct (cleanup w) as [w'|] eqn:Hc; [|done].
    by destruct (settings_cleanup w w' Hc) as [-> ->].
  - done.
Qed.

Lemma size_run (evs : list (Event F)) :
  forall w : World F,
    (forall a b, Resize a b ∉ evs) ->
    width (renderer (run evs w)) = width (renderer w) /\
    height (renderer (run evs w)) = height (renderer w) /\
    canvas_width (renderer (run evs w)) = canvas_width (renderer w) /\
    canvas_height (renderer (run evs w)) = canvas_height (renderer w).
Proof.
  induction evs as [|ev evs IH]; intros w Hno; [done|].
  change (run (ev :: evs) w) with (run evs (after ev w)).
  destruct (IH (after ev w)) as (-> & -> & -> & ->).
  { intros a b Hin. apply (Hno a b). by right. }
  unfold after. destruct ev as [now|iw ih| |]; simpl.
  - by destruct (settings_frame now w) as (_ & _ & _ & _ & -> & -> & -> & ->).
  - destruct (Hno iw ih). by left.
  - destruct (cleanup w) as [w'|] eqn:Hc; [|done].
    by destruct (settings_cleanup w w' Hc) as [_ ->].
  - done.
Qed.

Lemma settings_mounted (reg : Registry F) (iw ih dpr now : F) (e : Element) :
  renderer (mounted reg iw ih dpr now e) =
    render (set_toneMapping ACESFilmicToneMapping (of_Z 1)
              (setPixelRatio dpr (setSize iw ih (WebGLRenderer true)))) /\
  controls (mounted reg iw ih dpr now e) =
    {| enableDamping := true; dampingFactor := dec 25 2;
       enableZoom := true; enablePan := true;
       maxPolarAngle := fdiv fPI (of_Z 2) |}.
Proof. split; reflexivity. Qed.

(** The settings made at mount stay: in every state the renderer is
    antialiased, has the pixel ratio [devicePixelRatio] read at mount and
    ACES filmic tone mapping with exposure 1, and the controls have
    damping (factor 0.25), zoom and pan enabled and the polar angle limited
    to [Math.PI / 2]. As long as the window is not resized, the renderer
    has the size of the window at mount and its drawing buffer is the one
    [setPixelRatio] made: [floor (innerWidth * devicePixelRatio)] by
    [floor (innerHeight * devicePixelRatio)] pixels. *)
Theorem settings_never_change (reg : Registry F) (iw ih dpr now : F)
    (e : Element) :
  registry_builds reg ->
  exists w0,
    mount reg iw ih dpr now (Some e) = Ok w0 /\
    forall evs,
      let r := renderer (run evs w0) in
      antialias r = true /\
      pixelRatio r = dpr /\
      toneMapping r = ACESFilmicToneMapping /\
      toneMappingExposure r = of_Z 1 /\
      controls (run evs w0) =
        {| enableDamping := true; dampingFactor := dec 25 2;
           enableZoom := true; enablePan := true;
           maxPolarAngle := fdiv fPI (of_Z 2) |} /\
      ((forall a b, Resize a b ∉ evs) ->
       width r = iw /\ height r = ih /\
       canvas_width r = ffloor (fmul iw dpr) /\
       canvas_height r = ffloor (fmul ih dpr)).
Proof.
  intros Hb. eexists. split; [by apply mount_builds|].
  intros evs r. subst r.
  destruct (settings_mounted reg iw ih dpr now e) as [Hr Hc].
  destruct (settings_run evs (mounted reg iw ih dpr now e))
    as (-> & -> & -> & ->).
  rewrite pixelRatio_run, Hr, Hc.
  repeat (split; [reflexivity|]).
  intros Hno.
  destruct (size_run evs (mounted reg iw ih dpr now e) Hno)
    as (-> & -> & -> & ->).
  by rewrite Hr.
Qed.

(** *** The sun *)

Lemma sun_after_run (reg : Registry F) (evs : list (Event F)) :
  forall (w : World F) (o : Object3D F),
    Inv reg w -> scene w !! 2 = Some o ->
    exists o',
      scene (run evs w) !! 2 = Some o' /\
      kind o' = kind o /\ children o' = children o /\
      position o' = position o /\
      rotation o' =
        vec3 (vx (rotation o))
             (add_times (count_frames evs) (dec 1 2) (vy (rotation o)))
             (vz (rotation o)).
Proof.
  induction evs as [|ev evs IH]; intros w o HI Ho.
  - exists o. repeat (split; [done|]). by destruct (rotation o).
  - pose proof (Inv_after reg ev w HI) as HI'.
    change (run (ev :: evs) w) with (run evs (after ev w)).
    destruct ev as [now|iw ih| |].
    + assert (scene (after (Frame now) w) !! 2 =
              Some (set_rotation_y (fadd (vy (rotation o)) (dec 1 2)) o))
        as Ho1.
      { destruct HI as ((Hpl & Hsun & _) & Hq & _).
        unfold after. simpl. rewrite frame_eq by done.
        rewrite (animate_lookup_sun reg) by done.
        change (scene (with_rafQueue 0 w)) with (scene w). by rewrite Ho. }
      destruct (IH _ _ HI' Ho1) as (o' & Ho' & Hk & Hc & Hp & Hr).
      exists o'. repeat (split; [done|]). rewrite Hr.
      cbn [count_frames rotation set_rotation_y set_rotation vx vy vz].
      by rewrite add_times_shift.
    + apply IH; [done|]. by rewrite after_scene_no_frame.
    + apply IH; [done|]. by rewrite after_scene_no_frame.
    + apply IH; [done|]. by rewrite after_scene_no_frame.
Qed.

(** The sun is child 2 of the scene, a sphere of radius 10 with no
    children. It never leaves the origin, and every call of [animate]
    adds [0.01] to its angle about the y axis, at whatever time the call is
    made: after mount and any history the angle is [0] with [0.01] added
    [1 + number of frames] times, in the arithmetic of JavaScript
    numbers. *)
Theorem sun_turns_in_place (reg : Registry F) (iw ih dpr now0 : F)
    (e : Element) :
  registry_builds reg ->
  exists w0,
    mount reg iw ih dpr now0 (Some e) = Ok w0 /\
    forall evs,
      exists o,
        scene (run evs w0) !! sun (run evs w0) = Some o /\
        sphere_radius o = Some (of_Z 10) /\
        children o = [] /\
        position o = vec3 (of_Z 0) (of_Z 0) (of_Z 0) /\
        rotation o =
          vec3 (of_Z 0)
               (add_times (1 + count_frames evs) (dec 1 2) (of_Z 0))
               (of_Z 0).
Proof.
  intros Hb. eexists. split; [by apply mount_builds|].
  intros evs.
  pose proof (Inv_mounted reg iw ih dpr now0 e) as HI0.
  assert (sun (run evs (mounted reg iw ih dpr now0 e)) = 2) as ->
    by apply (Inv_run reg evs _ HI0).
  assert (exists o,
            scene (mounted reg iw ih dpr now0 e) !! 2 = Some o /\
            sphere_radius o = Some (of_Z 10) /\ children o = [] /\
            position o = vec3 (of_Z 0) (of_Z 0) (of_Z 0) /\
            rotation o = vec3 (of_Z 0) (fadd (of_Z 0) (dec 1 2)) (of_Z 0))
    as (o & Ho & Hrad & Hch & Hpos & Hrot).
  { eexists. split.
    - change (scene (mounted reg iw ih dpr now0 e))
        with (scene (animate now0 (built_world reg iw ih dpr e))).
      rewrite (animate_lookup_sun reg) by done. reflexivity.
    - by repeat split. }
  destruct (sun_after_run reg evs _ o HI0 Ho) as (o' & Ho' & Hk & Hc & Hp & Hr).
  exists o'. split; [done|].
  split; [unfold sphere_radius in *; by rewrite Hk|].
  split; [congruence|]. split; [congruence|].
  rewrite Hr, Hrot. cbn [vx vy vz]. by rewrite add_times_shift.
Qed.

(** *** Bodies and their orbit lines *)

(** The orbit line of body [i] is built from the body's own orbit
    radius: in every state, a frame places body [i] at
    [(distance * cos(time * orbitSpeed), 0, distance * sin(time * orbitSpeed))]
    with [time = now * 0.0005], and child [3 + numberOfBodies + i] of the
    scene is the line [createOrbit] makes for the same [distance], its 65
    points sampled with that radius. (The line itself is turned by
    [Math.PI / 2] about the x axis.) *)
Theorem orbit_line_has_body_radius (reg : Registry F)
    (iw ih dpr now0 : F) (e : Element) :
  registry_builds reg ->
  exists w0,
    mount reg iw ih dpr now0 (Some e) = Ok w0 /\
    forall evs now i p,
      planets w0 !! i = Some p ->
      exists o line,
        scene (frame now (run evs w0)) !! mesh p = Some o /\
        position o =
          vec3 (fmul (distance p)
                  (fcos (fmul (fmul now (dec 5 4)) (orbitSpeed p))))
               (of_Z 0)
               (fmul (distance p)
                  (fsin (fmul (fmul now (dec 5 4)) (orbitSpeed p)))) /\
        scene (frame now (run evs w0)) !! (3 + numberOfBodies reg + i)
        = Some line /\
        line = createOrbit (distance p) /\
        rotation line = vec3 (fdiv fPI (of_Z 2)) (of_Z 0) (of_Z 0) /\
        line_points line =
          (orbit_point (distance p) <$> seq 0 64)
          ++ [orbit_point (distance p) 0].
Proof.
  intros Hb. eexists. split; [by apply mount_builds|].
  intros evs now i p Hp.
  pose proof (Inv_mounted reg iw ih dpr now0 e) as HI0.
  pose proof (Inv_run reg evs _ HI0) as HI.
  assert (planets (run evs (mounted reg iw ih dpr now0 e)) !! i = Some p)
    as Hp' by (by rewrite (Inv_planets_eq reg _ _ HI0 HI)).
  destruct (Inv_planets_lookup reg _ i p HI0 Hp) as [Hi Hentry].
  assert (planetDistances reg !! i = Some (distance p)) as Hd.
  { rewrite Hentry. cbn [distance built_entry].
    apply distance_at_Some. destruct Hb as [Hb _]. lia. }
  destruct (frame_body reg _ now i p HI Hp') as (o0 & _ & Hy & Ho).
  assert (frame now (run evs (mounted reg iw ih dpr now0 e)) =
          run (evs ++ [Frame now]) (mounted reg iw ih dpr now0 e)) as Hfr.
  { rewrite <- run_frame. unfold run. by rewrite foldl_app. }
  eexists _, (createOrbit (distance p)).
  split; [exact Ho|].
  split.
  { destruct o0 as [k0 [x0 y0 z0] r0 c0]. cbn in Hy. by rewrite Hy. }
  split.
  { rewrite Hfr.
    rewrite (run_static_lookup reg) by (done || lia).
    rewrite mounted_static_lookup by lia.
    by rewrite built_scene_lookup_orbit, Hd. }
  split; [reflexivity|]. split; [reflexivity|].
  apply createOrbit_points.
Qed.

End MountedMore.

(** ** Further properties over the real numbers *)

Section RealMore.
Context `{!OrbitControlsLib R}.
Local Open Scope R_scope.

(** Unfold the number operations at the real numbers. *)
Ltac real_ops :=
  unfold dec;
  cbn [of_Z fadd fmul fdiv fcos fsin fsqrt ffloor fround fPI R_JsNumber];
  repeat match goal with
  | |- context [IZR (10 ^ Z.of_nat ?e)] =>
      let v := eval vm_compute in (10 ^ Z.of_nat e)%Z in
      change (10 ^ Z.of_nat e)%Z with v
  end.

(** The ring made by [createSaturnRings] for a body of radius [size]
    reaches from [1.3 * size] to [1.5 * size]: for a positive size it
    lies outside the body and has a positive width. It is turned by
    [PI / 2] about the x axis and has no children. *)
Theorem createSaturnRings_clear_of_body (size : R) :
  0 < size ->
  exists inner outer,
    ring_radii (createSaturnRings size) = Some (inner, outer) /\
    inner = size * 1.3 /\ outer = size * 1.5 /\
    size < inner /\ inner < outer /\
    rotation (createSaturnRings size) = vec3 (PI / 2) 0 0 /\
    position (createSaturnRings size) = vec3 0 0 0 /\
    children (createSaturnRings size) = [].
Proof.
  intros Hs. eexists _, _. split; [reflexivity|].
  real_ops. repeat split; lra.
Qed.

End RealMore.

(** ** The further properties at sample inputs *)

#[local] Existing Instance idle_controls.
#[local] Open Scope R_scope.

Lemma createSaturnRings_clear_of_body_witness :
  0 < 2 /\
  exists inner outer,
    ring_radii (createSaturnRings 2) = Some (inner, outer) /\
    2 < inner /\ inner < outer.
Proof.
  assert (0 < 2) as H2 by lra.
  split; [exact H2|].
  destruct (createSaturnRings_clear_of_body 2 H2)
    as (inner & outer & Hr & _ & _ & Hi & Ho & _).
  exists inner, outer. exact (conj Hr (conj Hi Ho)).
Defined.

Lemma sun_turns_in_place_witness :
  registry_builds (F:=R) solar_registry /\
  exists w0,
    mount solar_registry 800 600 1 0 (Some empty_div) = Ok w0 /\
    exists o,
      scene (run [Frame 16; Frame 33] w0) !! sun (run [Frame 16; Frame 33] w0)
      = Some o /\
      position o = vec3 0 0 0 /\
      rotation o = vec3 0 (0 + dec 1 2 + dec 1 2 + dec 1 2) 0.
Proof.
  split; [exact (conj (le_n 8) eq_refl)|].
  destruct (sun_turns_in_place solar_registry 800 600 1 0 empty_div
              (conj (le_n 8) eq_refl)) as (w0 & Hm & Hsun).
  exists w0. split; [exact Hm|].
  destruct (Hsun [Frame 16; Frame 33]) as (o & Ho & _ & _ & Hp & Hr).
  exists o. exact (conj Ho (conj Hp Hr)).
Defined.

Lemma one_render_per_frame_witness :
  registry_builds (F:=R) solar_registry /\
  exists w0,
    mount solar_registry 800 600 1 0 (Some empty_div) = Ok w0 /\
    frames (renderer (run [Frame 16; Unmount; Frame 33] w0)) = 3%nat.
Proof.
  split; [exact (conj (le_n 8) eq_refl)|].
  destruct (one_render_per_frame solar_registry 800 600 1 0 empty_div
              (conj (le_n 8) eq_refl)) as (w0 & Hm & Hf).
  exists w0. split; [exact Hm|]. exact (Hf [Frame 16; Unmount; Frame 33]).
Defined.

Lemma lights_and_orbits_never_change_witness :
  registry_builds (F:=R) solar_registry /\
  exists w0,
    mount solar_registry 800 600 1 0 (Some empty_div) = Ok w0 /\
    scene (run [Frame 16; Frame 33] w0) !! 13%nat = Some (createOrbit 40).
Proof.
  split; [exact (conj (le_n 8) eq_refl)|].
  destruct (lights_and_orbits_never_change solar_registry 800 600 1 0
              empty_div (conj (le_n 8) eq_refl)) as (w0 & Hm & Hs).
  exists w0. split; [exact Hm|].
  exact (proj2 (proj2 (Hs [Frame 16; Frame 33])) 2%nat).
Defined.

Lemma body_keeps_label_and_ring_witness :
  registry_builds (F:=R) short_names_registry /\
  exists w0,
    mount short_names_registry 800 600 1 0 (Some empty_div) = Ok w0 /\
    exists o label,
      scene (run [Frame 16] w0) !! 5%nat = Some o /\
      children o = [label] /\
      kind label = SpriteText None (dec 15 1) "white" /\
      position label = vec3 0 3 0.
Proof.
  split; [exact (conj (le_n 8) eq_refl)|].
  destruct (body_keeps_label_and_ring short_names_registry 800 600 1 0
              empty_div (conj (le_n 8) eq_refl)) as (w0 & Hm & Hb).
  exists w0. split; [exact Hm|].
  destruct (Hb [Frame 16] 2%nat "/assets/textures/earth.jpg"%string eq_refl)
    as (o & label & Ho & _ & Hc & Hk & Hp & _).
  exists o, label. exact (conj Ho (conj Hc (conj Hk Hp))).
Defined.

Lemma planets_never_change_witness :
  registry_builds (F:=R) solar_registry /\
  exists w0,
    mount solar_registry 800 600 1 0 (Some empty_div) = Ok w0 /\
    planets (run [Frame 16; Resize 1920 1080; Unmount] w0) = planets w0 /\
    length (planets w0) = 8%nat.
Proof.
  split; [exact (conj (le_n 8) eq_refl)|].
  destruct (planets_never_change solar_registry 800 600 1 0 empty_div
              (conj (le_n 8) eq_refl)) as (w0 & Hm & Hp).
  exists w0. split; [exact Hm|].
  destruct (Hp [Frame 16; Resize 1920 1080; Unmount]) as (Heq & _ & Hlen & _).
  exact (conj Heq Hlen).
Defined.

Lemma mount_throws_on_saturn_without_body_witness :
  (numberOfBodies (F:=R) stray_saturn_registry
   <= length (planetDistances (F:=R) stray_saturn_registry))%nat /\
  indexOf "Saturn" (planetNames (F:=R) stray_saturn_registry) = 5%Z /\
  mount stray_saturn_registry 800 600 1 0 (Some empty_div) = Throw TypeError.
Proof.
  split; [exact (le_n 5)|]. split; [reflexivity|].
  apply (mount_throws_on_saturn_without_body stray_saturn_registry
           800 600 1 0 empty_div (le_n 5)).
  apply Z.leb_le. reflexivity.
Defined.

Lemma resize_last_wins_witness :
  registry_builds (F:=R) solar_registry /\
  exists w0,
    mount solar_registry 1024 768 1 0 (Some empty_div) = Ok w0 /\
    after (Resize 1920 1080) (after (Resize 800 600) w0)
    = after (Resize 1920 1080) w0.
Proof.
  split; [exact (conj (le_n 8) eq_refl)|].
  destruct (resize_last_wins solar_registry 1024 768 1 0 empty_div
              (conj (le_n 8) eq_refl)) as (w0 & Hm & Hr).
  exists w0. split; [exact Hm|].
  exact (proj1 (Hr [] 800 600 1920 1080)).
Defined.

Lemma cleanup_restores_children_witness :
  registry_builds (F:=R) solar_registry /\
  exists w0 w1,
    mount solar_registry 800 600 1 0 (Some div_with_child) = Ok w0 /\
    childNodes (container w0) = [OtherNode 1; CanvasElement] /\
    step Unmount w0 = Ok w1 /\
    childNodes (container w1) = [OtherNode 1] /\
    step Unmount (run [DetachRef] w0) = Throw TypeError /\
    childNodes (container (run [DetachRef; Unmount] w0))
    = [OtherNode 1; CanvasElement].
Proof.
  split; [exact (conj (le_n 8) eq_refl)|].
  destruct (cleanup_restores_children solar_registry 800 600 1 0
              div_with_child (conj (le_n 8) eq_refl))
    as (w0 & Hm & Hn0 & (w1 & Hc & Hn1 & _) & Hd & Hk).
  exists w0, w1.
  split; [exact Hm|]. split; [exact Hn0|]. split; [exact Hc|].
  split; [exact Hn1|]. split; [exact Hd|].
  exact (eq_trans (f_equal childNodes Hk) Hn0).
Defined.

Lemma orbit_line_has_body_radius_witness :
  registry_builds (F:=R) solar_registry /\
  exists w0 p,
    mount solar_registry 800 600 1 0 (Some empty_div) = Ok w0 /\
    planets w0 !! 2%nat = Some p /\
    exists o,
      scene (frame 16 w0) !! mesh p = Some o /\
      vx (position o) = distance p * cos (16 * dec 5 4 * orbitSpeed p) /\
      scene (frame 16 w0) !! 13%nat = Some (createOrbit (distance p)).
Proof.
  split; [exact (conj (le_n 8) eq_refl)|].
  destruct (orbit_line_has_body_radius solar_registry 800 600 1 0 empty_div
              (conj (le_n 8) eq_refl)) as (w0 & Hm & Hl).
  exists w0, Earth. split; [exact Hm|].
  pose proof (mount_solar_Earth _ _ _ _ _ _ Hm) as HE.
  split; [exact HE|].
  destruct (Hl [] 16 2%nat Earth HE)
    as (o & line & Ho & Hpos & Hline & Heq & _).
  exists o. split; [exact Ho|]. split; [exact (f_equal vx Hpos)|].
  exact (eq_trans Hline (f_equal Some Heq)).
Defined.

Lemma settings_never_change_witness :
  registry_builds (F:=R) solar_registry /\
  exists w0,
    mount solar_registry 800 600 2 0 (Some empty_div) = Ok w0 /\
    pixelRatio (renderer (run [Frame 16; Unmount] w0)) = 2 /\
    toneMapping (renderer (run [Frame 16; Unmount] w0))
    = ACESFilmicToneMapping /\
    width (renderer (run [Frame 16; Unmount] w0)) = 800 /\
    canvas_width (renderer (run [Frame 16; Unmount] w0)) = ffloor (800 * 2).
Proof.
  split; [exact (conj (le_n 8) eq_refl)|].
  destruct (settings_never_change solar_registry 800 600 2 0 empty_div
              (conj (le_n 8) eq_refl)) as (w0 & Hm & Hs).
  exists w0. split; [exact Hm|].
  destruct (Hs [Frame 16; Unmount]) as (_ & Hp & Ht & _ & _ & Hsize).
  split; [exact Hp|]. split; [exact Ht|].
  assert (forall a b : R, Resize a b ∉ [Frame 16; Unmount]) as Hno.
  { intros a b Hin. inversion Hin as [|? ? ? Hin1]; subst.
    inversion Hin1 as [|? ? ? Hin2]; subst. inversion Hin2. }
  destruct (Hsize Hno) as (Hw & _ & Hcw & _).
  exact (conj Hw Hcw).
Defined.
